(** * strategy.py: indicator engine and signal checks of the QQQ strategy

    A shallow embedding of [run_strategy_check] and of the functions nested in
    it: [calculate_rsi], [check_entry_condition_latest],
    [check_exit_condition_latest] and [send_telegram_message], together with
    the pandas operations they call ([diff], [mask], [abs], [cumsum],
    [ewm(...).mean()], element-wise arithmetic).

    Numbers.  The program computes on float64 values.  In the indicator
    engine and in the Entry check they are modelled by [num]: a rational,
    one of the two infinities, or not-a-number, with the IEEE 754 rules for
    the special values (comparisons with NaN are false, [0/0], [inf - inf],
    [0 * inf] and [inf / inf] are NaN, [x / 0] is an infinity for
    [x <> 0]).  Finite arithmetic is exact there: rounding, overflow and the
    sign of zero are not modelled (a zero divisor counts as [+0], which is
    what [abs] and sums of non-negative volumes produce).  A property that
    needs the code not to overflow says so, with [within_binary64].

    The Exit check multiplies a price by a factor and compares: at a
    threshold its answer depends on how binary64 rounds.  It is modelled on
    binary64 floats themselves, Rocq's primitive floats. *)

From Stdlib Require Import QArith Qabs Lqa Floats.
From stdpp Require Import gmap strings list fin_maps.

Set Warnings "-inexact-float".

Local Open Scope Q_scope.

(** ** Float values *)

Inductive num : Type :=
  | NaN
  | PInf
  | NInf
  | Fin (q : Q).

Module Num.

Definition is_nan (x : num) : bool :=
  match x with NaN => true | _ => false end.

Definition Qltb (a b : Q) : bool := negb (Qle_bool b a).

Definition signed_inf (positive : bool) : num :=
  if positive then PInf else NInf.

Definition opp (x : num) : num :=
  match x with
  | NaN => NaN
  | PInf => NInf
  | NInf => PInf
  | Fin q => Fin (- q)
  end.

Definition add (x y : num) : num :=
  match x, y with
  | NaN, _ | _, NaN => NaN
  | PInf, NInf | NInf, PInf => NaN
  | PInf, _ | _, PInf => PInf
  | NInf, _ | _, NInf => NInf
  | Fin a, Fin b => Fin (a + b)
  end.

Definition sub (x y : num) : num := add x (opp y).

(** An infinity times finite [q]: NaN for [q = 0], else the signs multiply. *)
Definition inf_times (positive : bool) (q : Q) : num :=
  if Qeq_bool q 0 then NaN
  else signed_inf (if Qltb 0 q then positive else negb positive).

Definition mul (x y : num) : num :=
  match x, y with
  | NaN, _ | _, NaN => NaN
  | PInf, PInf | NInf, NInf => PInf
  | PInf, NInf | NInf, PInf => NInf
  | PInf, Fin q | Fin q, PInf => inf_times true q
  | NInf, Fin q | Fin q, NInf => inf_times false q
  | Fin a, Fin b => Fin (a * b)
  end.

Definition div (x y : num) : num :=
  match x, y with
  | NaN, _ | _, NaN => NaN
  | (PInf | NInf), (PInf | NInf) => NaN
  | Fin _, (PInf | NInf) => Fin 0
  | PInf, Fin q => signed_inf (Qle_bool 0 q)
  | NInf, Fin q => signed_inf (negb (Qle_bool 0 q))
  | Fin a, Fin b =>
      if Qeq_bool b 0 then
        if Qeq_bool a 0 then NaN else signed_inf (Qltb 0 a)
      else Fin (a / b)
  end.

Definition abs (x : num) : num :=
  match x with
  | NaN => NaN
  | PInf | NInf => PInf
  | Fin q => Fin (Qabs q)
  end.

(** Comparisons, as [<], [<=], [>], [>=], [==] and [!=] of floats: every one
    but [!=] is false as soon as an operand is NaN. *)
Definition ltb (x y : num) : bool :=
  match x, y with
  | NaN, _ | _, NaN => false
  | _, NInf | PInf, _ => false
  | NInf, _ | _, PInf => true
  | Fin a, Fin b => Qltb a b
  end.

Definition leb (x y : num) : bool :=
  match x, y with
  | NaN, _ | _, NaN => false
  | NInf, _ | _, PInf => true
  | _, NInf | PInf, _ => false
  | Fin a, Fin b => Qle_bool a b
  end.

Definition gtb (x y : num) : bool := ltb y x.
Definition geb (x y : num) : bool := leb y x.

Definition eqb (x y : num) : bool :=
  match x, y with
  | PInf, PInf | NInf, NInf => true
  | Fin a, Fin b => Qeq_bool a b
  | _, _ => false
  end.

Definition neqb (x y : num) : bool := negb (eqb x y).

(** The order of the extended rationals, as propositions.  NaN is related to
    nothing. *)
Definition lt (x y : num) : Prop :=
  match x, y with
  | NaN, _ | _, NaN => False
  | _, NInf | PInf, _ => False
  | NInf, _ | _, PInf => True
  | Fin a, Fin b => a < b
  end.

Definition le (x y : num) : Prop :=
  match x, y with
  | NaN, _ | _, NaN => False
  | NInf, _ | _, PInf => True
  | _, NInf | PInf, _ => False
  | Fin a, Fin b => a <= b
  end.

(** Two values are the same number: [Q] has several fractions per number. *)
Definition same (x y : num) : Prop :=
  match x, y with
  | NaN, NaN | PInf, PInf | NInf, NInf => True
  | Fin a, Fin b => a == b
  | _, _ => False
  end.

Definition defined (x : num) : Prop := x <> NaN.

End Num.

Declare Scope num_scope.
Delimit Scope num_scope with num.
Bind Scope num_scope with num.
Infix "+" := Num.add : num_scope.
Infix "-" := Num.sub : num_scope.
Infix "*" := Num.mul : num_scope.
Infix "/" := Num.div : num_scope.
Infix "<?" := Num.ltb : num_scope.
Infix "<=?" := Num.leb : num_scope.
Infix ">?" := Num.gtb : num_scope.
Infix ">=?" := Num.geb : num_scope.
Coercion Fin : Q >-> num.

(** ** pandas Series operations

    A Series of floats is the list of its values, in index order.  The
    operations below are the ones [run_strategy_check] calls; two Series
    combined element-wise always come from the same frame, hence share their
    index. *)

Module Series.

(** [s.diff()]: NaN first, then each value minus the one before it. *)
Definition diff (s : list num) : list num :=
  match s with
  | [] => []
  | _ :: t => NaN :: zip_with Num.sub t s
  end.

(** [s.mask(cond, other)]: [other] wherever [cond] is True. *)
Definition mask (s : list num) (cond : list bool) (other : num) : list num :=
  zip_with (fun x (c : bool) => if c then other else x) s cond.

Definition lt_scalar (s : list num) (k : num) : list bool :=
  (fun x => Num.ltb x k) <$> s.

Definition gt_scalar (s : list num) (k : num) : list bool :=
  (fun x => Num.gtb x k) <$> s.

Definition abs (s : list num) : list num := Num.abs <$> s.

Definition add (a b : list num) : list num := zip_with Num.add a b.
Definition mul (a b : list num) : list num := zip_with Num.mul a b.
Definition div (a b : list num) : list num := zip_with Num.div a b.
Definition div_scalar (a : list num) (k : num) : list num :=
  (fun x => Num.div x k) <$> a.
Definition scalar_add (k : num) (a : list num) : list num :=
  (fun x => Num.add k x) <$> a.
Definition scalar_div (k : num) (a : list num) : list num :=
  (fun x => Num.div k x) <$> a.
Definition scalar_sub (k : num) (a : list num) : list num :=
  (fun x => Num.sub k x) <$> a.

(** [s.cumsum()] with the default [skipna=True]: a NaN entry gives NaN at
    its own position and leaves the running sum as it was. *)
Fixpoint cumsum_from (acc : num) (s : list num) : list num :=
  match s with
  | [] => []
  | x :: t =>
      if Num.is_nan x then NaN :: cumsum_from acc t
      else let acc' := Num.add acc x in acc' :: cumsum_from acc' t
  end.

Definition cumsum (s : list num) : list num := cumsum_from (Fin 0) s.

(** [s.ewm(..., adjust=False).mean()] with the defaults [ignore_na=False] and
    [min_periods=0] (which pandas raises to 1).  pandas first prepares the
    values, turning the infinities into NaN ([BaseWindow._prep_values]), then
    runs the loop of [window.aggregations.ewm], here for equally spaced
    observations. *)
Definition prep_value (x : num) : num :=
  match x with
  | PInf | NInf => NaN
  | _ => x
  end.

Definition prep_values (vals : list num) : list num := prep_value <$> vals.

Record ewm_state : Type := EwmState {
  weighted : num;
  old_wt : Q;
  nobs : nat
}.

Definition ewm_minp : nat := 1.

Definition ewm_step (alpha : Q) (st : ewm_state) (cur : num) : ewm_state :=
  let old_wt_factor := 1 - alpha in
  let new_wt := alpha in
  let is_observation := negb (Num.is_nan cur) in
  let nobs' := (nobs st + (if is_observation then 1 else 0))%nat in
  if negb (Num.is_nan (weighted st)) then
    let old_wt' := old_wt st * old_wt_factor in
    if is_observation then
      let weighted' :=
        if Num.neqb (weighted st) cur then
          Num.div
            (Num.add (Num.mul (Fin old_wt') (weighted st))
                     (Num.mul (Fin new_wt) cur))
            (Fin (old_wt' + new_wt))
        else weighted st in
      EwmState weighted' 1 nobs'
    else EwmState (weighted st) old_wt' nobs'
  else if is_observation then EwmState cur (old_wt st) nobs'
  else EwmState (weighted st) (old_wt st) nobs'.

Definition ewm_output (st : ewm_state) : num :=
  if (ewm_minp <=? nobs st)%nat then weighted st else NaN.

Fixpoint ewm_loop (alpha : Q) (st : ewm_state) (vals : list num) : list num :=
  match vals with
  | [] => []
  | cur :: rest =>
      let st' := ewm_step alpha st cur in
      ewm_output st' :: ewm_loop alpha st' rest
  end.

Definition ewm (alpha : Q) (vals : list num) : list num :=
  match vals with
  | [] => []
  | x :: rest =>
      let st := EwmState x 1 (if Num.is_nan x then 0 else 1) in
      ewm_output st :: ewm_loop alpha st rest
  end.

Definition ewm_mean (alpha : Q) (vals : list num) : list num :=
  ewm alpha (prep_values vals).

(** The smoothing factor of [ewm(com=c)] and of [ewm(span=s)]. *)
Definition alpha_of_com (c : Q) : Q := 1 / (1 + c).
Definition alpha_of_span (s : Q) : Q := 2 / (s + 1).

End Series.

(** ** Frames, rows, exceptions and output *)

(** A DataFrame is the map from its column labels to its columns; a row of
    it (a Series indexed by the column labels) maps each label to a value. *)
Abbreviation frame := (gmap string (list num)).
Abbreviation row := (gmap string num).

Inductive exn : Type :=
  | KeyError (key : string)
  | UnboundLocalError (name : string).

(** What the program prints or sends.  The text of a message is kept
    symbolic: [MsgColumnError e] stands for
    ["Error accessing expected columns after flattening: {e}"], and so on. *)
Inductive message : Type :=
  | MsgColumnError (e : exn)
  | MsgAvailableColumns (df : gmap string (list num))
  | MsgNoDataPoints
  | MsgCouldNotFetch
  | MsgEntryCheckError (e : exn)
  | MsgEntrySignal (latest : row)
  | MsgNoEntrySignal.

Inductive effect : Type :=
  | Print (m : message)
  | SendTelegram (m : message).

(** A computation that leaves a trace of effects and either raises or
    returns. *)
Definition py (A : Type) : Type := (list effect * (exn + A))%type.

Definition ret {A} (a : A) : py A := ([], inr a).
Definition raise {A} (e : exn) : py A := ([], inl e).
Definition emit (ef : effect) : py unit := ([ef], inr tt).

Definition bind {A B} (m : py A) (k : A -> py B) : py B :=
  match m with
  | (out, inl e) => (out, inl e)
  | (out, inr a) => let '(out', r) := k a in (out ++ out', r)
  end.

(** [try: m except KeyError as e: h e]; any other exception passes. *)
Definition try_except {A} (m : py A) (h : exn -> py A) : py A :=
  match m with
  | (out, inl (KeyError key)) =>
      let '(out', r) := h (KeyError key) in (out ++ out', r)
  | _ => m
  end.

Notation "'let*' x := m 'in' k" := (bind m (fun x => k))
  (at level 10, x name, m at level 100, k at level 200).
Notation "m ;;; k" := (bind m (fun _ => k))
  (at level 100, k at level 200, right associativity).

(** [obj[key]] on a frame or on a row. *)
Definition getitem {V} (obj : gmap string V) (key : string) : py V :=
  match obj !! key with
  | Some v => ret v
  | None => raise (KeyError key)
  end.

(** [df.empty]: no column, or no row. *)
Definition frame_empty (df : frame) : bool :=
  bool_decide (map_Forall (fun _ c => c = []) df).

(** [df.iloc[-1]] of a frame that is not empty. *)
Definition iloc_last (df : frame) : row := omap last df.

(** ** The strategy *)

Local Open Scope string_scope.

(** [calculate_rsi(data, period=14)], with its intermediate Series.  The
    code passes no [period], so it is 14; for a [period] below 1 pandas'
    [ewm(com=period - 1)] raises ValueError, which is not modelled. *)
Definition rsi_delta (data : list num) : list num := Series.diff data.

Definition rsi_gain (data : list num) : list num :=
  let delta := rsi_delta data in
  Series.mask delta (Series.lt_scalar delta (Fin 0)) (Fin 0).

Definition rsi_loss (data : list num) : list num :=
  let delta := rsi_delta data in
  Series.abs (Series.mask delta (Series.gt_scalar delta (Fin 0)) (Fin 0)).

Definition rsi_avg_gain (data : list num) (period : Q) : list num :=
  Series.ewm_mean (Series.alpha_of_com (period - 1)) (rsi_gain data).

Definition rsi_avg_loss (data : list num) (period : Q) : list num :=
  Series.ewm_mean (Series.alpha_of_com (period - 1)) (rsi_loss data).

Definition calculate_rsi (data : list num) (period : Q) : list num :=
  let avg_gain := rsi_avg_gain data period in
  let avg_loss := rsi_avg_loss data period in
  let rs := Series.div avg_gain avg_loss in
  let rsi :=
    Series.scalar_sub (Fin 100)
      (Series.scalar_div (Fin 100) (Series.scalar_add (Fin 1) rs)) in
  rsi.

Definition RSI_PERIOD : Q := 14.
Definition ema_period : Q := 15.

(** [check_entry_condition_latest(data_row)] *)
Definition check_entry_condition_latest (data_row : row) : py bool :=
  let rsi_threshold : num := Fin 45 in
  try_except
    (let* rsi := getitem data_row "RSI" in
     let rsi_condition := Num.gtb rsi rsi_threshold in
     let* close := getitem data_row "Close_QQQ" in
     let* ema := getitem data_row "EMA" in
     let ema_condition := Num.gtb close ema in
     let* close' := getitem data_row "Close_QQQ" in
     let* vwap := getitem data_row "VWAP" in
     let vwap_condition := Num.gtb close' vwap in
     ret (rsi_condition && ema_condition && vwap_condition))
    (fun e => emit (Print (MsgEntryCheckError e)) ;;; ret false).

(** A row as the Exit check reads it.  The Exit check multiplies and
    divides, and at a threshold its answer depends on how binary64 rounds:
    it is modelled on binary64 floats, with the operations of IEEE 754. *)
Abbreviation float_row := (gmap string float).

(** [x >= y] on floats. *)
Definition float_geb (x y : float) : bool := (y <=? x)%float.

(** [check_exit_condition_latest(data_row, buy_price,
    take_profit_percentage=2.5, stop_loss_percentage=0.5,
    trailing_stop_percentage=1.0)]; [buy_price] is [None] or a float.  The
    function returns a pair: a flag and a reason, [None] or a string. *)
Definition check_exit_condition_latest (data_row : float_row)
    (buy_price : option float)
    (take_profit_percentage stop_loss_percentage
       trailing_stop_percentage : float) : py (bool * option string) :=
  match buy_price with
  | None => ret (false, None)
  | Some buy_price =>
      let* current_price := getitem data_row "Close_QQQ" in
      let take_profit_price :=
        (buy_price * (1 + take_profit_percentage / 100))%float in
      let take_profit_hit := float_geb current_price take_profit_price in
      if take_profit_hit then ret (true, Some "Take Profit")
      else
        let stop_loss_price :=
          (buy_price * (1 - stop_loss_percentage / 100))%float in
        let stop_loss_hit := (current_price <=? stop_loss_price)%float in
        if stop_loss_hit then ret (true, Some "Stop Loss")
        else ret (false, None)
  end.

(** The default values of the three percentages. *)
Definition take_profit_percentage_default : float := 2.5%float.
Definition stop_loss_percentage_default : float := 0.5%float.
Definition trailing_stop_percentage_default : float := 1.0%float.

Definition check_exit_condition_latest_defaults (data_row : float_row)
    (buy_price : option float) : py (bool * option string) :=
  check_exit_condition_latest data_row buy_price
    take_profit_percentage_default stop_loss_percentage_default
    trailing_stop_percentage_default.

(** Lines 49-52 of [run_strategy_check], statement by statement: each
    assigns one column of the frame. *)
Definition assign_typical_price (df : frame) : py frame :=
  let* high := getitem df "High_QQQ" in
  let* low := getitem df "Low_QQQ" in
  let* close := getitem df "Close_QQQ" in
  ret (<["Typical_Price" :=
           Series.div_scalar (Series.add (Series.add high low) close) (Fin 3)]>
         df).

Definition assign_cumulative_tp_volume (df : frame) : py frame :=
  let* typical_price := getitem df "Typical_Price" in
  let* volume := getitem df "Volume_QQQ" in
  ret (<["Cumulative_TP_Volume" :=
           Series.cumsum (Series.mul typical_price volume)]> df).

Definition assign_cumulative_volume (df : frame) : py frame :=
  let* volume := getitem df "Volume_QQQ" in
  ret (<["Cumulative_Volume" := Series.cumsum volume]> df).

Definition assign_vwap (df : frame) : py frame :=
  let* cumulative_tp_volume := getitem df "Cumulative_TP_Volume" in
  let* cumulative_volume := getitem df "Cumulative_Volume" in
  ret (<["VWAP" := Series.div cumulative_tp_volume cumulative_volume]> df).

(** The frame is one object, which the statements change in place: when a
    statement raises, the columns that the earlier ones assigned stay.
    [in_place statement] runs a statement on the frame unless an exception
    is already under way; [vwap_block df] is the frame as lines 49-52 leave
    it, with the exception they end with, if any.  (The statements print
    nothing.) *)
Definition in_place (statement : frame -> py frame)
    (state : frame * option exn) : frame * option exn :=
  match state with
  | (df, Some e) => (df, Some e)
  | (df, None) =>
      match statement df with
      | (_, inr df') => (df', None)
      | (_, inl e) => (df, Some e)
      end
  end.

Definition vwap_block (df : frame) : frame * option exn :=
  in_place assign_vwap
    (in_place assign_cumulative_volume
       (in_place assign_cumulative_tp_volume
          (in_place assign_typical_price (df, None)))).

(** Lines 49-52 as a function of the frame: the frame with its VWAP
    column, or the exception. *)
Definition add_vwap (df : frame) : py frame :=
  match vwap_block df with
  | (df', None) => ret df'
  | (_, Some e) => raise e
  end.

(** Lines 61-68: the EMA and RSI columns; the intermediate columns are
    dropped. *)
Definition add_ema_rsi (df : frame) : py frame :=
  let* close := getitem df "Close_QQQ" in
  let df :=
    <["EMA" := Series.ewm_mean (Series.alpha_of_span ema_period) close]> df in
  let* close := getitem df "Close_QQQ" in
  let df := <["RSI" := calculate_rsi close RSI_PERIOD]> df in
  ret (delete "Cumulative_Volume"
         (delete "Cumulative_TP_Volume" (delete "Typical_Price" df))).

(** [send_telegram_message] is a local name of [run_strategy_check],
    bound by the [def] on line 123.  The calls on lines 27 and 56 come
    before that line is reached: looking the name up raises
    UnboundLocalError, before the message is built.  The call on line 159
    comes after it. *)
Definition send_telegram_message_unbound {A} : py A :=
  raise (UnboundLocalError "send_telegram_message").

(** [run_strategy_check()] from line 25 on: [latest_qqq_data] is the frame
    that [yf.download] returned, its columns named as line 32 leaves them
    ([Close_QQQ], [High_QQQ], ...).  The handler of line 53 catches the
    KeyError of lines 49-52 and prints the columns of the frame as these
    lines left it. *)
Definition run_strategy_check (latest_qqq_data : frame) : py unit :=
  if frame_empty latest_qqq_data then
    emit (Print MsgCouldNotFetch) ;;;
    send_telegram_message_unbound
  else
    match vwap_block latest_qqq_data with
    | (df, Some (KeyError key)) =>
        emit (Print (MsgColumnError (KeyError key))) ;;;
        emit (Print (MsgAvailableColumns df)) ;;;
        send_telegram_message_unbound
    | (_, Some e) => raise e
    | (df, None) =>
        let* df := add_ema_rsi df in
        if frame_empty df then emit (Print MsgNoDataPoints)
        else
          let latest_row := iloc_last df in
          let* signal := check_entry_condition_latest latest_row in
          if signal then
            emit (Print (MsgEntrySignal latest_row)) ;;;
            emit (SendTelegram (MsgEntrySignal latest_row))
          else emit (Print MsgNoEntrySignal)
    end.

(** The indicator columns of a frame, and the Entry check on its latest
    bar, as [run_strategy_check] chains them. *)
Definition indicators (df : frame) : py frame :=
  let* df := add_vwap df in add_ema_rsi df.

Definition entry_check_latest (df : frame) : py bool :=
  let* df := indicators df in
  check_entry_condition_latest (iloc_last df).

(** A frame of bars: the four columns the strategy reads. *)
Definition bars (high low close volume : list num) : frame :=
  <["High_QQQ" := high]> (<["Low_QQQ" := low]>
    (<["Close_QQQ" := close]> (<["Volume_QQQ" := volume]> ∅))).

(** What the spec calls a loud, caller-facing failure: the call raises. *)
Definition fails_loudly {A} (m : py A) : Prop :=
  exists out e, m = (out, inl e).

(** The call returns [a], whatever it printed. *)
Definition returns {A} (m : py A) (a : A) : Prop :=
  exists out, m = (out, inr a).

(** [x <= y] and [x >= y] as floats compare: false when one is NaN. *)
Definition float_le (x y : float) : Prop := (x <=? y)%float = true.
Definition float_ge (x y : float) : Prop := float_geb x y = true.

(** The Exit check as the specification words it, for a position given by
    its entry price and its peak price since entry: TakeProfit, then
    StopLoss, then TrailingStop, the three prices computed on floats.  It
    is compared below with [check_exit_condition_latest], which is the
    code. *)
Definition spec_exit_check (close entry_price peak_price_since_entry : float)
    : bool * option string :=
  if float_geb close (entry_price * 1.025)%float then
    (true, Some "Take Profit")
  else if (close <=? entry_price * 0.995)%float then
    (true, Some "Stop Loss")
  else if (close <=? peak_price_since_entry * 0.99)%float then
    (true, Some "Trailing Stop")
  else (false, None).

(** Rows used as concrete inputs. *)
Definition row_of (rsi close ema vwap : num) : row :=
  <["RSI" := rsi]> (<["Close_QQQ" := close]>
    (<["EMA" := ema]> (<["VWAP" := vwap]> ∅))).

Definition close_only (close : float) : float_row :=
  {["Close_QQQ" := close]}.

(** A column whose first [n] values are all undefined. *)
Definition undefined_prefix (n : nat) (column : list num) : Prop :=
  forall i x, (i < n)%nat -> column !! i = Some x -> x = NaN.

(** Twenty bars whose close rises by one from 100 to 119, each with volume
    1000, and twenty flat bars without volume. *)
Definition rising_closes : list Q :=
  [100; 101; 102; 103; 104; 105; 106; 107; 108; 109;
   110; 111; 112; 113; 114; 115; 116; 117; 118; 119].

Definition rising_bars : frame :=
  let close := Fin <$> rising_closes in
  bars close close close (replicate 20 (Fin 1000)).

Definition flat_bars : frame :=
  let close := replicate 20 (Fin 100) in
  bars close close close (replicate 20 (Fin 0)).

(** ** Notions the properties are stated with *)

(** The RSI of one bar from its two smoothed averages. *)
Definition rsi_of (avg_gain avg_loss : num) : num :=
  (Fin 100 - Fin 100 / (Fin 1 + avg_gain / avg_loss))%num.

(** A value that is NaN, [+inf] or a non-negative rational. *)
Definition nonneg (x : num) : Prop :=
  match x with
  | NaN | PInf => True
  | NInf => False
  | Fin q => 0 <= q
  end.

(** A value that is NaN or a rational of the interval [0, 100]. *)
Definition rsi_in_range (x : num) : Prop :=
  match x with
  | NaN => True
  | PInf | NInf => False
  | Fin q => 0 <= q <= 100
  end.

(** The invariant of the ewm loop on non-negative observations. *)
Definition ewm_inv (st : Series.ewm_state) : Prop :=
  nonneg (Series.weighted st) /\ 0 < Series.old_wt st.

(** The VWAP column, from the four columns it is computed from.  Its
    values are exact quotients here; the code's are their binary64
    roundings. *)
Definition vwap_of (high low close volume : list num) : list num :=
  let typical_price :=
    Series.div_scalar (Series.add (Series.add high low) close) (Fin 3) in
  Series.div (Series.cumsum (Series.mul typical_price volume))
    (Series.cumsum volume).

(** The EMA column, from the close column. *)
Definition ema_of (close : list num) : list num :=
  Series.ewm_mean (Series.alpha_of_span ema_period) close.

(** ** Sending a Telegram message *)

(** [send_telegram_message(message)].  The environment is the map that
    [os.getenv] reads; [post url chat_id text] is what the network makes
    of [requests.post(url, json={'chat_id': chat_id, 'text': text})]
    followed by [response.raise_for_status()]: success, or a
    [RequestException] with its text.  The function prints and posts; it
    returns nothing and catches the only exception it can meet. *)
Module Telegram.

Inductive io : Type :=
  | Printed (text : string)
  | Posted (url chat_id text : string).

Inductive post_result : Type :=
  | PostOk
  | PostFailed (error : string).

Definition not_set : string :=
  "Telegram bot token or chat ID not set in environment variables.".

(** [not value] for the result of [os.getenv]: None and the empty string
    are falsy. *)
Definition falsy (value : option string) : bool :=
  match value with
  | None | Some EmptyString => true
  | Some (String _ _) => false
  end.

Definition send_telegram_message (environ : gmap string string)
    (post : string -> string -> string -> post_result)
    (message : string) : list io :=
  let bot_token := environ !! "TELEGRAM_BOT_TOKEN" in
  let chat_id := environ !! "TELEGRAM_CHAT_ID" in
  if falsy bot_token || falsy chat_id then [Printed not_set]
  else
    match bot_token, chat_id with
    | Some bot_token, Some chat_id =>
        let url :=
          "https://api.telegram.org/bot" +:+ bot_token +:+ "/sendMessage" in
        Posted url chat_id message ::
        match post url chat_id message with
        | PostOk => [Printed "Telegram message sent successfully."]
        | PostFailed e =>
            [Printed ("Error sending Telegram message: " +:+ e)]
        end
    | _, _ => [Printed not_set]
    end.

Definition is_post (ev : io) : bool :=
  match ev with Posted _ _ _ => true | Printed _ => false end.

End Telegram.

(** ** Frames with rows, and shapes of series *)

(** A frame all of whose columns have [n] rows, as every pandas frame
    has. *)
Definition frame_rows (n : nat) (df : frame) : Prop :=
  map_Forall (fun _ column => length column = n) df.

(** The columns [run_strategy_check] reads, in the order it reads them, and
    the first of them that a frame lacks. *)
Definition required_columns : list string :=
  ["High_QQQ"; "Low_QQQ"; "Close_QQQ"; "Volume_QQQ"].

Definition first_missing (df : frame) : option string :=
  List.find (fun key => bool_decide (df !! key = None)) required_columns.

(** The columns lines 49-51 add and line 68 drops. *)
Definition temporary_columns : list string :=
  ["Typical_Price"; "Cumulative_TP_Volume"; "Cumulative_Volume"].

Definition is_telegram (ef : effect) : bool :=
  match ef with SendTelegram _ => true | Print _ => false end.

(** [chain R x0 l]: each value of [x0 :: l] is related to the next one. *)
Fixpoint chain (R : Q -> Q -> Prop) (prev : Q) (l : list Q) : Prop :=
  match l with
  | [] => True
  | x :: t => R prev x /\ chain R x t
  end.

Definition rising : Q -> list Q -> Prop := chain Qlt.
Definition falling : Q -> list Q -> Prop := chain (fun a b => b < a).
Definition flat : Q -> list Q -> Prop := chain Qeq.

(** The differences of consecutive values of [prev :: l]. *)
Fixpoint qdiffs (prev : Q) (l : list Q) : list Q :=
  match l with
  | [] => []
  | x :: t => (x + - prev) :: qdiffs x t
  end.

(** The textbook recurrence of an exponential moving average:
    [e(t) = alpha * x(t) + (1 - alpha) * e(t-1)]. *)
Fixpoint ema_recurrence (alpha prev : Q) (l : list Q) : list Q :=
  match l with
  | [] => []
  | x :: t =>
      let e := alpha * x + (1 - alpha) * prev in
      e :: ema_recurrence alpha e t
  end.

(** The gain and the loss of a price difference, on rationals. *)
Definition qgain (d : Q) : Q := if Num.Qltb d 0 then 0 else d.
Definition qloss (d : Q) : Q := Qabs (if Num.Qltb 0 d then 0 else d).

(** The arithmetic of the model is exact and unbounded; the code's
    overflows to an infinity beyond about 1.8e308.  Closes within this
    bound have differences that binary64 holds without overflow. *)
Definition binary64_bound : Q := inject_Z (2 ^ 1022).

Definition within_binary64 (c : Q) : Prop := Qabs c <= binary64_bound.

(** A value that is a rational of the interval [lo, hi]. *)
Definition between (lo hi : Q) (x : num) : Prop :=
  match x with
  | Fin q => lo <= q <= hi
  | _ => False
  end.

(** * Properties *)

(** ** Comparisons of floats *)

Module NumFacts.

Lemma Qltb_lt (a b : Q) : Num.Qltb a b = true <-> a < b.
Proof.
  unfold Num.Qltb. rewrite negb_true_iff.
  destruct (Qle_bool b a) eqn:E.
  - apply Qle_bool_iff in E. split; [discriminate | intros H; lra].
  - split; [intros _ | reflexivity].
    apply Qnot_le_lt. intros H. apply Qle_bool_iff in H. congruence.
Qed.

Lemma ltb_lt (x y : num) : Num.ltb x y = true <-> Num.lt x y.
Proof.
  destruct x, y; simpl; try (split; [discriminate | tauto]); try tauto.
  apply Qltb_lt.
Qed.

Lemma leb_le (x y : num) : Num.leb x y = true <-> Num.le x y.
Proof.
  destruct x, y; simpl; try (split; [discriminate | tauto]); try tauto.
  apply Qle_bool_iff.
Qed.

Lemma gtb_lt (x y : num) : Num.gtb x y = true <-> Num.lt y x.
Proof. apply ltb_lt. Qed.

Lemma lt_defined_l (x y : num) : Num.lt x y -> Num.defined x.
Proof. destruct x; simpl; [tauto | discriminate ..]. Qed.

Lemma lt_defined_r (x y : num) : Num.lt x y -> Num.defined y.
Proof. destruct x, y; simpl; try tauto; discriminate. Qed.

Lemma Qeq_bool_false (a b : Q) : Qeq_bool a b = false <-> ~ a == b.
Proof.
  rewrite <- Qeq_bool_iff. destruct (Qeq_bool a b); intuition congruence.
Qed.

End NumFacts.

Lemma ret_inj {A} (a b : A) : ret a = ret b -> a = b.
Proof. intros H. injection H. auto. Qed.

(** ** The Entry check *)

Section EntryCheck.

Variable data_row : row.
Variables rsi close ema vwap : num.
Hypothesis row_rsi : data_row !! "RSI" = Some rsi.
Hypothesis row_close : data_row !! "Close_QQQ" = Some close.
Hypothesis row_ema : data_row !! "EMA" = Some ema.
Hypothesis row_vwap : data_row !! "VWAP" = Some vwap.

Lemma entry_check_complete_row :
  check_entry_condition_latest data_row =
  ret (Num.gtb rsi (Fin 45) && Num.gtb close ema && Num.gtb close vwap).
Proof.
  unfold check_entry_condition_latest, getitem.
  rewrite row_rsi, row_close, row_ema, row_vwap. reflexivity.
Qed.

End EntryCheck.

(** C1.  On a row that holds RSI, close, EMA and VWAP, the Entry check
    returns (it neither raises nor prints), and it returns a trigger if and
    only if the three indicators are defined and RSI > 45, close > EMA and
    close > VWAP; if one of the three indicators is NaN it returns
    no-signal. *)
Theorem entry_check_iff_thresholds
    (data_row : row) (rsi close ema vwap : num) :
  data_row !! "RSI" = Some rsi ->
  data_row !! "Close_QQQ" = Some close ->
  data_row !! "EMA" = Some ema ->
  data_row !! "VWAP" = Some vwap ->
  (exists signal, check_entry_condition_latest data_row = ret signal) /\
  (check_entry_condition_latest data_row = ret true <->
     Num.defined rsi /\ Num.defined ema /\ Num.defined vwap /\
     Num.lt (Fin 45) rsi /\ Num.lt ema close /\ Num.lt vwap close) /\
  (rsi = NaN \/ ema = NaN \/ vwap = NaN ->
     check_entry_condition_latest data_row = ret false).
Proof.
  intros Hrsi Hclose Hema Hvwap.
  rewrite (entry_check_complete_row _ _ _ _ _ Hrsi Hclose Hema Hvwap).
  split; [eauto |]. split.
  - split.
    + intros H. apply ret_inj in H.
      apply andb_true_iff in H as [H Hv]. apply andb_true_iff in H as [Hr He].
      apply NumFacts.gtb_lt in Hr, He, Hv.
      repeat split; eauto using NumFacts.lt_defined_l, NumFacts.lt_defined_r.
    + intros (_ & _ & _ & Hr & He & Hv).
      apply NumFacts.gtb_lt in Hr, He, Hv. rewrite Hr, He, Hv. reflexivity.
  - intros [-> | [-> | ->]]; simpl.
    + reflexivity.
    + destruct close; simpl; rewrite ?andb_false_r; reflexivity.
    + destruct close; simpl; rewrite ?andb_false_r; reflexivity.
Qed.

Lemma entry_check_iff_thresholds_witness :
  row_of (Fin 50) (Fin 101) (Fin 100) (Fin 99) !! "RSI" = Some (Fin 50) /\
  check_entry_condition_latest (row_of (Fin 50) (Fin 101) (Fin 100) (Fin 99))
    = ret true.
Proof.
  split; [reflexivity |].
  destruct (entry_check_iff_thresholds
              (row_of (Fin 50) (Fin 101) (Fin 100) (Fin 99))
              (Fin 50) (Fin 101) (Fin 100) (Fin 99)
              eq_refl eq_refl eq_refl eq_refl) as (_ & Hiff & _).
  apply Hiff. repeat split; try discriminate; reflexivity.
Defined.

(** The two ways the Entry check ends: on a complete row it returns the
    conjunction of the three comparisons; otherwise a field is missing, a
    message naming it is printed and False is returned. *)
Lemma entry_check_shape (data_row : row) :
  (exists rsi close ema vwap,
     data_row !! "RSI" = Some rsi /\ data_row !! "Close_QQQ" = Some close /\
     data_row !! "EMA" = Some ema /\ data_row !! "VWAP" = Some vwap /\
     check_entry_condition_latest data_row =
       ret (Num.gtb rsi (Fin 45) && Num.gtb close ema && Num.gtb close vwap))
  \/
  (exists key,
     data_row !! key = None /\
     check_entry_condition_latest data_row =
       ([Print (MsgEntryCheckError (KeyError key))], inr false)).
Proof.
  unfold check_entry_condition_latest, getitem.
  destruct (data_row !! "RSI") as [rsi|] eqn:Hrsi;
    [| right; exists "RSI"; split; [assumption | reflexivity]].
  destruct (data_row !! "Close_QQQ") as [close|] eqn:Hclose;
    [| right; exists "Close_QQQ"; split; [assumption | reflexivity]].
  destruct (data_row !! "EMA") as [ema|] eqn:Hema;
    [| right; exists "EMA"; split; [assumption | reflexivity]].
  destruct (data_row !! "VWAP") as [vwap|] eqn:Hvwap;
    [| right; exists "VWAP"; split; [assumption | reflexivity]].
  left. exists rsi, close, ema, vwap. repeat split; reflexivity.
Qed.

(** A row with a NaN among its fields never triggers. *)
Lemma entry_check_nan_no_signal (data_row : row) :
  data_row !! "RSI" = Some NaN \/ data_row !! "Close_QQQ" = Some NaN \/
  data_row !! "EMA" = Some NaN \/ data_row !! "VWAP" = Some NaN ->
  returns (check_entry_condition_latest data_row) false.
Proof.
  intros H.
  destruct (entry_check_shape data_row)
    as [(rsi & close & ema & vwap & Hr & Hc & He & Hv & ->)
       | (key & Hkey & ->)]; [| eexists; reflexivity].
  exists [].
  assert (Hnan : rsi = NaN \/ close = NaN \/ ema = NaN \/ vwap = NaN)
    by (destruct H as [H | [H | [H | H]]]; intuition congruence).
  unfold ret. do 2 f_equal.
  destruct rsi, close, ema, vwap; simpl; rewrite ?andb_false_r;
    try reflexivity;
    destruct Hnan as [Hn | [Hn | [Hn | Hn]]]; discriminate Hn.
Qed.

(** C5, as the specification states it, fails: a row without its VWAP
    field makes the Entry check print a message and return False; nothing
    is raised, so the caller sees an ordinary no-signal. *)
Lemma entry_check_missing_field_not_reported :
  let data_row : row :=
    <["RSI" := Fin 50]> (<["Close_QQQ" := Fin 101]> {["EMA" := Fin 100]}) in
  data_row !! "VWAP" = None /\
  check_entry_condition_latest data_row =
    ([Print (MsgEntryCheckError (KeyError "VWAP"))], inr false) /\
  ~ fails_loudly (check_entry_condition_latest data_row).
Proof.
  split; [reflexivity |]. split; [reflexivity |].
  intros (out & e & H). vm_compute in H. discriminate H.
Qed.

(** C5, amended.  When one of the fields RSI, Close_QQQ, EMA, VWAP is
    missing from the row, the Entry check fails closed without reporting an
    error: it prints one message naming a missing field and returns False.
    When a field is present but NaN the Entry check returns False as well.
    It never raises. *)
Theorem entry_check_fails_closed (data_row : row) :
  (data_row !! "RSI" = None \/ data_row !! "Close_QQQ" = None \/
   data_row !! "EMA" = None \/ data_row !! "VWAP" = None ->
   exists key,
     data_row !! key = None /\
     check_entry_condition_latest data_row =
       ([Print (MsgEntryCheckError (KeyError key))], inr false)) /\
  (data_row !! "RSI" = Some NaN \/ data_row !! "Close_QQQ" = Some NaN \/
   data_row !! "EMA" = Some NaN \/ data_row !! "VWAP" = Some NaN ->
   returns (check_entry_condition_latest data_row) false) /\
  ~ fails_loudly (check_entry_condition_latest data_row).
Proof.
  split; [| split; [apply entry_check_nan_no_signal |]].
  - intros H.
    destruct (entry_check_shape data_row)
      as [(rsi & close & ema & vwap & Hr & Hc & He & Hv & _)
         | (key & Hkey & Heq)].
    + destruct H as [H | [H | [H | H]]]; congruence.
    + exists key. split; assumption.
  - intros (out & e & H).
    destruct (entry_check_shape data_row)
      as [(rsi & close & ema & vwap & _ & _ & _ & _ & Heq)
         | (key & _ & Heq)];
      rewrite Heq in H; discriminate H.
Qed.

Lemma entry_check_fails_closed_witness :
  returns (check_entry_condition_latest
             (row_of NaN (Fin 101) (Fin 100) (Fin 99))) false.
Proof.
  apply (entry_check_fails_closed (row_of NaN (Fin 101) (Fin 100) (Fin 99))).
  left. reflexivity.
Defined.

(** ** The Exit check *)

Module ExitFacts.

(** The two factors of the default percentages are the floats nearest to
    1.025 and to 0.995. *)
Lemma take_profit_factor :
  (1 + take_profit_percentage_default / 100)%float = 1.025%float.
Proof. reflexivity. Qed.

Lemma stop_loss_factor :
  (1 - stop_loss_percentage_default / 100)%float = 0.995%float.
Proof. reflexivity. Qed.

(** The Exit check with the default percentages, its thresholds written
    as the float products [entry_price * 1.025] and [entry_price * 0.995]. *)
Lemma defaults_unfold (data_row : float_row) (close entry_price : float) :
  data_row !! "Close_QQQ" = Some close ->
  check_exit_condition_latest_defaults data_row (Some entry_price) =
  ret (if float_geb close (entry_price * 1.025)%float then
         (true, Some "Take Profit")
       else if (close <=? entry_price * 0.995)%float then
         (true, Some "Stop Loss")
       else (false, None)).
Proof.
  intros Hclose.
  unfold check_exit_condition_latest_defaults, check_exit_condition_latest,
    getitem.
  rewrite Hclose. cbn [bind ret].
  rewrite take_profit_factor, stop_loss_factor.
  destruct (float_geb close (entry_price * 1.025)%float); [reflexivity |].
  destruct (close <=? entry_price * 0.995)%float; reflexivity.
Qed.

(** A NaN operand makes a product NaN and a comparison false. *)
Lemma mul_nan_l (k : float) : (nan * k)%float = nan.
Proof.
  apply Prim2SF_inj. rewrite mul_spec.
  replace (Prim2SF nan) with S754_nan by reflexivity. reflexivity.
Qed.

Lemma leb_nan_l (x : float) : (nan <=? x)%float = false.
Proof. rewrite leb_spec. reflexivity. Qed.

Lemma leb_nan_r (x : float) : (x <=? nan)%float = false.
Proof.
  rewrite leb_spec. replace (Prim2SF nan) with S754_nan by reflexivity.
  destruct (Prim2SF x); reflexivity.
Qed.

(** The Exit check at three prices where rounding decides: the stop loss
    price of 380 is the float 378.1 itself, the take profit price of 100 is
    the float just below 102.5, that of -100 the float just above -102.5. *)
Example exit_check_at_rounded_thresholds :
  check_exit_condition_latest_defaults (close_only 378.1%float)
    (Some 380%float) = ret (true, Some "Stop Loss") /\
  check_exit_condition_latest_defaults
    (close_only 102.49999999999999%float) (Some 100%float)
    = ret (true, Some "Take Profit") /\
  check_exit_condition_latest_defaults (close_only (-102.5)%float)
    (Some (-100)%float) = ret (true, Some "Stop Loss").
Proof. repeat split. Qed.

End ExitFacts.

(** C2, as the specification states it, fails: with entry price 100 and
    peak price 102 a close of 100.5 is below the trailing stop price 100.98
    and between the two other thresholds, so the specification reports
    TrailingStop; the code reports no exit. *)
Lemma exit_check_omits_trailing_stop :
  spec_exit_check 100.5%float 100%float 102%float =
    (true, Some "Trailing Stop") /\
  check_exit_condition_latest_defaults (close_only 100.5%float)
    (Some 100%float) = ret (false, None) /\
  check_exit_condition_latest_defaults (close_only 100.5%float)
    (Some 100%float)
    <> ret (spec_exit_check 100.5%float 100%float 102%float).
Proof.
  split; [reflexivity |]. split; [reflexivity |].
  intros H. vm_compute in H. discriminate H.
Qed.

(** C2, amended.  Given a position's entry price, the Exit check evaluates
    two exit conditions in the fixed order TakeProfit, then StopLoss, and
    returns the first that holds: TakeProfit when
    close >= entry_price * 1.025, StopLoss when close <= entry_price * 0.995,
    the products and the comparisons being those of binary64 floats (the
    factors are the floats that 1 + 2.5/100 and 1 - 0.5/100 evaluate to);
    if neither holds, no exit is reported.  No peak price is taken and
    TrailingStop is never reported. *)
Theorem exit_check_take_profit_then_stop_loss
    (data_row : float_row) (close entry_price : float) :
  data_row !! "Close_QQQ" = Some close ->
  let result := check_exit_condition_latest_defaults data_row
                  (Some entry_price) in
  (float_ge close (entry_price * 1.025) ->
     result = ret (true, Some "Take Profit")) /\
  (~ float_ge close (entry_price * 1.025) ->
   float_le close (entry_price * 0.995) ->
     result = ret (true, Some "Stop Loss")) /\
  (~ float_ge close (entry_price * 1.025) ->
   ~ float_le close (entry_price * 0.995) ->
     result = ret (false, None)) /\
  ~ returns result (true, Some "Trailing Stop").
Proof.
  intros Hclose result. subst result.
  rewrite (ExitFacts.defaults_unfold _ _ _ Hclose).
  unfold float_ge, float_le.
  destruct (float_geb close (entry_price * 1.025)%float) eqn:Htp;
    destruct (close <=? entry_price * 0.995)%float eqn:Hsl;
    repeat split; try congruence; intros (out & H); discriminate H.
Qed.

Lemma exit_check_take_profit_then_stop_loss_witness :
  close_only 102.5%float !! "Close_QQQ" = Some 102.5%float /\
  check_exit_condition_latest_defaults (close_only 102.5%float)
    (Some 100%float) = ret (true, Some "Take Profit").
Proof.
  split; [reflexivity |].
  apply (exit_check_take_profit_then_stop_loss
           (close_only 102.5%float) 102.5%float 100%float eq_refl).
  reflexivity.
Defined.

(** C8.  When the close satisfies both the TakeProfit threshold
    (close >= entry_price * 1.025) and the StopLoss threshold
    (close <= entry_price * 0.995), as binary64 floats, the Exit check
    reports TakeProfit; the one pair it returns carries that single
    reason. *)
Theorem exit_check_take_profit_priority
    (data_row : float_row) (close entry_price : float) :
  data_row !! "Close_QQQ" = Some close ->
  float_ge close (entry_price * 1.025) ->
  float_le close (entry_price * 0.995) ->
  check_exit_condition_latest_defaults data_row (Some entry_price) =
    ret (true, Some "Take Profit") /\
  (forall flag reason,
     returns (check_exit_condition_latest_defaults data_row
                (Some entry_price)) (flag, reason) ->
     reason = Some "Take Profit").
Proof.
  intros Hclose Htp Hsl.
  rewrite (ExitFacts.defaults_unfold _ _ _ Hclose).
  unfold float_ge in Htp. rewrite Htp.
  split; [reflexivity |].
  intros flag reason (out & H). injection H as _ _ <-. reflexivity.
Qed.

Lemma exit_check_take_profit_priority_witness :
  float_ge (-101) (-100 * 1.025) /\
  float_le (-101) (-100 * 0.995) /\
  check_exit_condition_latest_defaults (close_only (-101)%float)
    (Some (-100)%float) = ret (true, Some "Take Profit").
Proof.
  assert (Htp : float_ge (-101) (-100 * 1.025)) by reflexivity.
  assert (Hsl : float_le (-101) (-100 * 0.995)) by reflexivity.
  split; [exact Htp |]. split; [exact Hsl |].
  apply (exit_check_take_profit_priority
           (close_only (-101)%float) (-101)%float (-100)%float
           eq_refl Htp Hsl).
Defined.

(** C4, as the specification states it, fails: called without a buy price
    the Exit check returns (False, None); it does not raise. *)
Lemma exit_check_flat_is_silent :
  check_exit_condition_latest_defaults (close_only 100%float) None =
    ret (false, None) /\
  ~ fails_loudly
      (check_exit_condition_latest_defaults (close_only 100%float) None).
Proof.
  split; [reflexivity |]. intros (out & e & H). discriminate H.
Qed.

(** C4, amended.  Invoking the Exit check while Flat (buy_price is None)
    returns (False, None), the same value as "no exit", for every row and
    every setting of the percentages: nothing is raised and nothing is
    printed. *)
Theorem exit_check_flat_returns_no_exit
    (data_row : float_row) (tp sl ts : float) :
  check_exit_condition_latest data_row None tp sl ts = ret (false, None) /\
  ~ fails_loudly (check_exit_condition_latest data_row None tp sl ts).
Proof.
  split; [reflexivity |]. intros (out & e & H). discriminate H.
Qed.

(** C10.  The result of the Exit check does not depend on its
    [trailing_stop_percentage] argument. *)
Theorem exit_check_ignores_trailing_stop_percentage
    (data_row : float_row) (buy_price : option float)
    (tp sl ts1 ts2 : float) :
  check_exit_condition_latest data_row buy_price tp sl ts1 =
  check_exit_condition_latest data_row buy_price tp sl ts2.
Proof.
  destruct buy_price as [entry_price|]; [| reflexivity].
  unfold check_exit_condition_latest.
  destruct (getitem data_row "Close_QQQ") as [out [e | current_price]];
    reflexivity.
Qed.

(** ** The RSI *)

Module RsiFacts.

Lemma calculate_rsi_lookup (data : list num) (period : Q) (i : nat)
    (avg_gain avg_loss : num) :
  rsi_avg_gain data period !! i = Some avg_gain ->
  rsi_avg_loss data period !! i = Some avg_loss ->
  calculate_rsi data period !! i = Some (rsi_of avg_gain avg_loss).
Proof.
  intros Hg Hl. unfold calculate_rsi, Series.scalar_sub, Series.scalar_div,
    Series.scalar_add, Series.div.
  rewrite !list_lookup_fmap, lookup_zip_with, Hg, Hl. reflexivity.
Qed.

Lemma Forall_zip_with {A B C} (P : A -> Prop) (Q : B -> Prop) (R : C -> Prop)
    (f : A -> B -> C) (l : list A) (k : list B) :
  (forall x y, P x -> Q y -> R (f x y)) ->
  Forall P l -> Forall Q k -> Forall R (zip_with f l k).
Proof.
  intros Hf Hl. revert k.
  induction Hl as [| x l Hx Hl IH]; intros k Hk; [constructor |].
  destruct Hk as [| y k Hy Hk]; simpl; [constructor |].
  constructor; [apply Hf; assumption | apply IH; assumption].
Qed.

Lemma gain_nonneg (delta : list num) :
  Forall nonneg (Series.mask delta (Series.lt_scalar delta (Fin 0)) (Fin 0)).
Proof.
  unfold Series.mask, Series.lt_scalar.
  induction delta as [| d delta IH]; simpl; constructor; [| exact IH].
  destruct d as [| | | q]; simpl; auto; try lra.
  destruct (Num.Qltb q 0) eqn:E; simpl; [lra |].
  destruct (Qlt_le_dec q 0) as [H | H]; [| exact H].
  apply NumFacts.Qltb_lt in H. congruence.
Qed.

Lemma loss_nonneg (delta : list num) :
  Forall nonneg
    (Series.abs (Series.mask delta (Series.gt_scalar delta (Fin 0)) (Fin 0))).
Proof.
  unfold Series.abs. apply Forall_fmap, Forall_forall.
  intros x _. destruct x; simpl; auto. apply Qabs_nonneg.
Qed.

Lemma mul_pos_nonneg (w : Q) (x : num) :
  0 < w -> nonneg x -> x <> NaN ->
  nonneg (Fin w * x) /\ (Fin w * x)%num <> NaN.
Proof.
  intros Hw Hx Hn. destruct x as [| | | q]; simpl in *; try tauto.
  - unfold Num.inf_times.
    destruct (Qeq_bool w 0) eqn:E; [apply Qeq_bool_iff in E; lra |].
    apply NumFacts.Qltb_lt in Hw. rewrite Hw. simpl.
    split; [exact I | discriminate].
  - split; [nra | discriminate].
Qed.

Lemma add_nonneg (x y : num) :
  nonneg x -> nonneg y -> x <> NaN -> y <> NaN ->
  nonneg (x + y) /\ (x + y)%num <> NaN.
Proof.
  destruct x, y; simpl; try tauto; intros; (split; [| discriminate]);
    try exact I; lra.
Qed.

Lemma div_pos_nonneg (x : num) (w : Q) :
  0 < w -> nonneg x -> nonneg (x / Fin w).
Proof.
  intros Hw Hx. destruct x as [| | | q]; simpl in *; try tauto.
  - assert (H : Qle_bool 0 w = true) by (apply Qle_bool_iff; lra).
    rewrite H. exact I.
  - destruct (Qeq_bool w 0) eqn:E; [apply Qeq_bool_iff in E; lra |].
    simpl. apply Qle_shift_div_l; lra.
Qed.

Lemma ewm_step_inv (alpha : Q) (st : Series.ewm_state) (cur : num) :
  0 < alpha < 1 -> ewm_inv st -> nonneg cur ->
  ewm_inv (Series.ewm_step alpha st cur).
Proof.
  intros Ha [Hw Ho] Hc. unfold Series.ewm_step.
  assert (Ho' : 0 < Series.old_wt st * (1 - alpha)) by nra.
  destruct (Num.is_nan (Series.weighted st)) eqn:Ew; simpl.
  - destruct (Num.is_nan cur); simpl; split; assumption.
  - destruct (Num.is_nan cur) eqn:Ec; simpl; [split; assumption |].
    split; [| simpl; lra]; simpl.
    destruct (Num.neqb (Series.weighted st) cur); [| exact Hw].
    assert (Hwn : Series.weighted st <> NaN)
      by (intros E; rewrite E in Ew; discriminate).
    assert (Hcn : cur <> NaN) by (intros E; rewrite E in Ec; discriminate).
    destruct (mul_pos_nonneg _ _ Ho' Hw Hwn) as [H1 H1n].
    destruct (mul_pos_nonneg alpha _ (proj1 Ha) Hc Hcn) as [H2 H2n].
    destruct (add_nonneg _ _ H1 H2 H1n H2n) as [H3 _].
    apply div_pos_nonneg; [lra | exact H3].
Qed.

Lemma ewm_output_nonneg (st : Series.ewm_state) :
  ewm_inv st -> nonneg (Series.ewm_output st).
Proof.
  intros [Hw _]. unfold Series.ewm_output.
  destruct (_ <=? _)%nat; [exact Hw | exact I].
Qed.

Lemma ewm_loop_nonneg (alpha : Q) (vals : list num) :
  0 < alpha < 1 -> Forall nonneg vals ->
  forall st, ewm_inv st -> Forall nonneg (Series.ewm_loop alpha st vals).
Proof.
  intros Ha Hv. induction Hv as [| cur rest Hc Hr IH]; intros st Hst; simpl;
    constructor.
  - apply ewm_output_nonneg, ewm_step_inv; assumption.
  - apply IH, ewm_step_inv; assumption.
Qed.

Lemma prep_values_nonneg (vals : list num) :
  Forall nonneg vals -> Forall nonneg (Series.prep_values vals).
Proof.
  intros Hv. apply Forall_fmap. eapply Forall_impl; [exact Hv |].
  intros [| | | q]; simpl; auto.
Qed.

Lemma ewm_mean_nonneg (alpha : Q) (vals : list num) :
  0 < alpha < 1 -> Forall nonneg vals ->
  Forall nonneg (Series.ewm_mean alpha vals).
Proof.
  intros Ha Hv. unfold Series.ewm_mean.
  apply prep_values_nonneg in Hv.
  destruct Hv as [| x rest Hx Hr]; simpl; constructor.
  - apply ewm_output_nonneg. split; simpl; [exact Hx | lra].
  - apply ewm_loop_nonneg; try assumption. split; simpl; [exact Hx | lra].
Qed.

(** Preparing the values changes nothing in a Series of rationals, also
    after a NaN. *)
Lemma prep_values_Fin (qs : list Q) :
  Series.prep_values (Fin <$> qs) = Fin <$> qs.
Proof.
  unfold Series.prep_values. rewrite <- list_fmap_compose.
  apply list_fmap_ext. intros i q _. reflexivity.
Qed.

Lemma ewm_mean_Fin (alpha : Q) (qs : list Q) :
  Series.ewm_mean alpha (Fin <$> qs) = Series.ewm alpha (Fin <$> qs).
Proof. unfold Series.ewm_mean. rewrite prep_values_Fin. reflexivity. Qed.

Lemma ewm_mean_nan_Fin (alpha : Q) (qs : list Q) :
  Series.ewm_mean alpha (NaN :: (Fin <$> qs))
  = Series.ewm alpha (NaN :: (Fin <$> qs)).
Proof.
  unfold Series.ewm_mean, Series.prep_values. cbn [fmap list_fmap].
  fold (Series.prep_values (Fin <$> qs)). rewrite prep_values_Fin.
  reflexivity.
Qed.

Lemma rs_nonneg (g l : num) : nonneg g -> nonneg l -> nonneg (g / l).
Proof.
  destruct g as [| | | a], l as [| | | b]; simpl; try tauto; intros Ha Hb.
  - apply Qle_bool_iff in Hb. rewrite Hb. exact I.
  - lra.
  - destruct (Qeq_bool b 0) eqn:Eb.
    + destruct (Qeq_bool a 0) eqn:Ea; [exact I |].
      apply NumFacts.Qeq_bool_false in Ea.
      assert (H : Num.Qltb 0 a = true) by (apply NumFacts.Qltb_lt; lra).
      rewrite H. exact I.
    + apply NumFacts.Qeq_bool_false in Eb. simpl.
      apply Qle_shift_div_l; lra.
Qed.

Lemma rsi_of_rs_in_range (rs : num) :
  nonneg rs -> rsi_in_range (Fin 100 - Fin 100 / (Fin 1 + rs)).
Proof.
  destruct rs as [| | | q]; simpl; try tauto; intros Hq; [lra |].
  destruct (Qeq_bool (1 + q) 0) eqn:E; [apply Qeq_bool_iff in E; lra |].
  simpl.
  assert (H1 : 0 <= 100 / (1 + q)) by (apply Qle_shift_div_l; lra).
  assert (H2 : 100 / (1 + q) <= 100) by (apply Qle_shift_div_r; lra).
  lra.
Qed.

Lemma period_alpha : 0 < Series.alpha_of_com (RSI_PERIOD - 1) < 1.
Proof. split; reflexivity. Qed.

End RsiFacts.

(** C6.  Every value of the RSI series of every close series is either
    undefined (NaN) or a number of the closed interval [0, 100]. *)
Theorem rsi_between_0_and_100 (data : list num) :
  Forall rsi_in_range (calculate_rsi data RSI_PERIOD).
Proof.
  unfold calculate_rsi, Series.scalar_sub, Series.scalar_div,
    Series.scalar_add, Series.div.
  rewrite <- !list_fmap_compose. apply Forall_fmap.
  apply (RsiFacts.Forall_zip_with nonneg nonneg).
  - intros g l Hg Hl. apply RsiFacts.rsi_of_rs_in_range, RsiFacts.rs_nonneg;
      assumption.
  - apply RsiFacts.ewm_mean_nonneg;
      [exact RsiFacts.period_alpha | apply RsiFacts.gain_nonneg].
  - apply RsiFacts.ewm_mean_nonneg;
      [exact RsiFacts.period_alpha | apply RsiFacts.loss_nonneg].
Qed.

(** C7.  At a bar where the smoothed average loss is 0 and the smoothed
    average gain is positive the RSI is 100; at a bar where both smoothed
    averages are 0 the RSI is NaN.  [calculate_rsi] is a total function:
    neither case raises. *)
Theorem rsi_zero_average_loss
    (data : list num) (period : Q) (i : nat) (avg_gain avg_loss : num) :
  rsi_avg_gain data period !! i = Some avg_gain ->
  rsi_avg_loss data period !! i = Some avg_loss ->
  (Num.same avg_loss (Fin 0) -> Num.lt (Fin 0) avg_gain ->
     exists rsi, calculate_rsi data period !! i = Some rsi /\
                 Num.same rsi (Fin 100)) /\
  (Num.same avg_loss (Fin 0) -> Num.same avg_gain (Fin 0) ->
     calculate_rsi data period !! i = Some NaN).
Proof.
  intros Hg Hl. rewrite (RsiFacts.calculate_rsi_lookup _ _ _ _ _ Hg Hl).
  unfold rsi_of. split.
  - intros Hl0 Hg0. eexists. split; [reflexivity |].
    destruct avg_loss as [| | | b]; simpl in Hl0; try tauto.
    destruct avg_gain as [| | | a]; simpl in Hg0; try tauto; simpl.
    + assert (H : Qle_bool 0 b = true) by (apply Qle_bool_iff; lra).
      rewrite H. simpl. lra.
    + apply Qeq_bool_iff in Hl0. rewrite Hl0.
      assert (Ha : Qeq_bool a 0 = false)
        by (apply NumFacts.Qeq_bool_false; lra).
      apply NumFacts.Qltb_lt in Hg0. rewrite Ha, Hg0. simpl. lra.
  - intros Hl0 Hg0.
    destruct avg_loss as [| | | b]; simpl in Hl0; try tauto.
    destruct avg_gain as [| | | a]; simpl in Hg0; try tauto; simpl.
    apply Qeq_bool_iff in Hl0, Hg0. rewrite Hl0, Hg0. reflexivity.
Qed.

Lemma rsi_zero_average_loss_witness :
  (exists rsi,
     calculate_rsi [Fin 100; Fin 101] RSI_PERIOD !! 1%nat = Some rsi /\
     Num.same rsi (Fin 100)) /\
  calculate_rsi [Fin 100; Fin 100] RSI_PERIOD !! 1%nat = Some NaN.
Proof.
  split.
  - apply (rsi_zero_average_loss [Fin 100; Fin 101] RSI_PERIOD 1
             (Fin (101 + - 100)) (Fin (Qabs 0)) eq_refl eq_refl);
      reflexivity.
  - apply (rsi_zero_average_loss [Fin 100; Fin 100] RSI_PERIOD 1
             (Fin (100 + - 100)) (Fin (Qabs (100 + - 100))) eq_refl eq_refl);
      reflexivity.
Defined.

(** ** The indicator columns *)

Module FrameFacts.

Section Columns.

Variable df : frame.
Variables high low close volume : list num.
Hypothesis df_high : df !! "High_QQQ" = Some high.
Hypothesis df_low : df !! "Low_QQQ" = Some low.
Hypothesis df_close : df !! "Close_QQQ" = Some close.
Hypothesis df_volume : df !! "Volume_QQQ" = Some volume.

(** With its four columns the frame goes through lines 49-52 without an
    exception. *)
Lemma vwap_block_columns :
  exists typical cumulative_tp cumulative_volume,
    vwap_block df =
    (<["VWAP" := vwap_of high low close volume]>
       (<["Cumulative_Volume" := cumulative_volume]>
          (<["Cumulative_TP_Volume" := cumulative_tp]>
             (<["Typical_Price" := typical]> df))), None).
Proof.
  unfold vwap_block, in_place at 4, assign_typical_price, getitem.
  rewrite df_high, df_low, df_close. cbn [bind ret].
  unfold in_place at 3, assign_cumulative_tp_volume, getitem.
  rewrite lookup_insert_eq. cbn [bind ret].
  rewrite lookup_insert_ne, df_volume by discriminate. cbn [bind ret].
  unfold in_place at 2, assign_cumulative_volume, getitem.
  rewrite !lookup_insert_ne, df_volume by discriminate. cbn [bind ret].
  unfold in_place, assign_vwap, getitem.
  rewrite lookup_insert_ne, lookup_insert_eq by discriminate. cbn [bind ret].
  rewrite lookup_insert_eq. cbn [bind ret].
  do 3 eexists. reflexivity.
Qed.

Lemma add_vwap_columns :
  exists df1,
    vwap_block df = (df1, None) /\
    add_vwap df = ret df1 /\
    df1 !! "VWAP" = Some (vwap_of high low close volume) /\
    df1 !! "Close_QQQ" = Some close.
Proof.
  destruct vwap_block_columns as (tp & ctp & cv & Hblock).
  eexists. split; [exact Hblock |]. split.
  - unfold add_vwap. rewrite Hblock. reflexivity.
  - split.
    + rewrite lookup_insert_eq. reflexivity.
    + rewrite !lookup_insert_ne by discriminate. exact df_close.
Qed.

Lemma add_ema_rsi_columns (df1 : frame) :
  df1 !! "Close_QQQ" = Some close ->
  exists df',
    add_ema_rsi df1 = ret df' /\
    df' !! "EMA" = Some (ema_of close) /\
    df' !! "RSI" = Some (calculate_rsi close RSI_PERIOD) /\
    df' !! "VWAP" = df1 !! "VWAP" /\
    df' !! "Close_QQQ" = Some close.
Proof.
  intros Hclose. unfold add_ema_rsi, getitem.
  rewrite Hclose. cbn [bind ret].
  rewrite lookup_insert_ne, Hclose by discriminate. cbn [bind ret app].
  eexists. split; [reflexivity |].
  rewrite !lookup_delete_ne by discriminate.
  repeat split.
  - rewrite lookup_insert_ne, lookup_insert_eq by discriminate. reflexivity.
  - rewrite lookup_insert_eq. reflexivity.
  - rewrite !lookup_insert_ne by discriminate. reflexivity.
  - rewrite !lookup_insert_ne by discriminate. exact Hclose.
Qed.

(** The frame that lines 49-68 compute holds the three indicator columns
    next to the close column. *)
Lemma indicators_columns :
  exists df',
    indicators df = ret df' /\
    df' !! "VWAP" = Some (vwap_of high low close volume) /\
    df' !! "EMA" = Some (ema_of close) /\
    df' !! "RSI" = Some (calculate_rsi close RSI_PERIOD) /\
    df' !! "Close_QQQ" = Some close.
Proof.
  destruct add_vwap_columns as (df1 & Hblock & Hv & Hvwap & Hclose).
  destruct (add_ema_rsi_columns df1 Hclose)
    as (df' & He & Hema & Hrsi & Hvwap' & Hclose').
  exists df'. unfold indicators. rewrite Hv. cbn [bind ret]. rewrite He.
  repeat split; try assumption. congruence.
Qed.

Lemma frame_not_empty (d : frame) (key : string) (column : list num) :
  d !! key = Some column -> column <> [] -> frame_empty d = false.
Proof.
  intros Hk Hc. unfold frame_empty. apply bool_decide_eq_false.
  intros HF. exact (Hc (HF key column Hk)).
Qed.

(** [run_strategy_check] on a frame with its four columns and at least
    one bar: the indicators are computed, then the Entry check of the latest
    row decides what is printed and sent. *)
Lemma run_strategy_check_bars :
  close <> [] ->
  exists df',
    indicators df = ret df' /\
    run_strategy_check df =
      (let* signal := check_entry_condition_latest (iloc_last df') in
       if signal then
         emit (Print (MsgEntrySignal (iloc_last df'))) ;;;
         emit (SendTelegram (MsgEntrySignal (iloc_last df')))
       else emit (Print MsgNoEntrySignal)).
Proof.
  intros Hne.
  destruct add_vwap_columns as (df1 & Hblock & Hv & Hvwap & Hclose).
  destruct (add_ema_rsi_columns df1 Hclose)
    as (df' & He & Hema & Hrsi & Hvwap' & Hclose').
  exists df'. split.
  - unfold indicators. rewrite Hv. cbn [bind ret]. rewrite He. reflexivity.
  - unfold run_strategy_check.
    rewrite (frame_not_empty df _ _ df_close Hne), Hblock.
    rewrite He. cbn [bind ret].
    rewrite (frame_not_empty df' _ _ Hclose' Hne).
    destruct (check_entry_condition_latest (iloc_last df'))
      as [out [e | signal]]; cbn [bind]; [reflexivity |].
    destruct signal; reflexivity.
Qed.

End Columns.

Lemma iloc_last_lookup (d : frame) (key : string) (column : list num) :
  d !! key = Some column -> iloc_last d !! key = last column.
Proof.
  intros H. unfold iloc_last. rewrite lookup_omap, H. reflexivity.
Qed.

Lemma mul_zero (x : num) :
  (x * Fin 0)%num = NaN \/ exists z, (x * Fin 0)%num = Fin z /\ z == 0.
Proof.
  destruct x as [| | | q]; [left; reflexivity .. |].
  right. exists (q * 0). split; [reflexivity | lra].
Qed.

(** With no volume traded the VWAP quotient is 0/0 (or NaN/0) at every
    bar. *)
Lemma zero_volume_quotient (typical_price : list num) (a b : Q) :
  a == 0 -> b == 0 ->
  zip_with Num.div
    (Series.cumsum_from (Fin a)
       (zip_with Num.mul typical_price
          (replicate (length typical_price) (Fin 0))))
    (Series.cumsum_from (Fin b) (replicate (length typical_price) (Fin 0)))
  = replicate (length typical_price) NaN.
Proof.
  revert a b. induction typical_price as [| x tp IH]; intros a b Ha Hb;
    [reflexivity |].
  cbn [length replicate zip_with Series.cumsum_from].
  destruct (mul_zero x) as [-> | (z & -> & Hz)];
    cbn [Num.is_nan Num.add zip_with Num.div].
  - f_equal. apply IH; [exact Ha | lra].
  - assert (Hb' : Qeq_bool (b + 0) 0 = true) by (apply Qeq_bool_iff; lra).
    assert (Ha' : Qeq_bool (a + z) 0 = true) by (apply Qeq_bool_iff; lra).
    rewrite Hb', Ha'. f_equal. apply IH; lra.
Qed.

Lemma vwap_zero_volume (high low close : list num) (n : nat) :
  length high = n -> length low = n -> length close = n ->
  vwap_of high low close (replicate n (Fin 0)) = replicate n NaN.
Proof.
  intros Hh Hl Hc. unfold vwap_of.
  set (tp := Series.div_scalar _ _).
  assert (Hn : length tp = n).
  { unfold tp, Series.div_scalar, Series.add.
    rewrite length_fmap, !length_zip_with, Hh, Hl, Hc. lia. }
  rewrite <- Hn. apply zero_volume_quotient; reflexivity.
Qed.

(** On finite closes every EMA value is finite, and the first EMA value
    is the first close. *)
Lemma ewm_loop_finite (alpha : Q) (closes : list Q) :
  forall (w o : Q) (n : nat),
    o == 1 ->
    exists emas,
      Series.ewm_loop alpha (Series.EwmState (Fin w) o (S n)) (Fin <$> closes)
        = Fin <$> emas /\
      length emas = length closes.
Proof.
  induction closes as [| c closes IH]; intros w o n Ho.
  - exists []. split; reflexivity.
  - cbn [fmap list_fmap Series.ewm_loop].
    unfold Series.ewm_step.
    cbn [Series.weighted Series.old_wt Series.nobs Num.is_nan negb].
    assert (Hd : Qeq_bool (o * (1 - alpha) + alpha) 0 = false)
      by (apply NumFacts.Qeq_bool_false; rewrite Ho; lra).
    destruct (Num.neqb (Fin w) (Fin c));
      cbn [Num.mul Num.add Num.div]; rewrite ?Hd;
      replace (S n + 1)%nat with (S (S n)) by lia;
      unfold Series.ewm_output at 1; cbn [Series.nobs Series.weighted];
      change (Series.ewm_minp <=? S (S n))%nat with true;
      cbn iota.
    + match goal with
      | |- context [Series.EwmState (Fin ?w') _ _] =>
          destruct (IH w' 1 (S n) (Qeq_refl 1)) as (emas & -> & Hlen);
          exists (w' :: emas)
      end.
      split; [reflexivity | simpl; lia].
    + destruct (IH w 1 (S n) (Qeq_refl 1)) as (emas & -> & Hlen).
      exists (w :: emas). split; [reflexivity | simpl; lia].
Qed.

Lemma ema_finite (first : Q) (later : list Q) :
  exists emas,
    ema_of (Fin <$> first :: later) = Fin <$> first :: emas /\
    length emas = length later.
Proof.
  unfold ema_of. rewrite RsiFacts.ewm_mean_Fin.
  cbn [fmap list_fmap Series.ewm Num.is_nan].
  destruct (ewm_loop_finite (Series.alpha_of_span ema_period) later
              first 1 0 (Qeq_refl 1)) as (emas & H & Hlen).
  exists emas. split; [| exact Hlen].
  rewrite H. reflexivity.
Qed.

Lemma rsi_first_undefined (first : num) (later : list num) (period : Q) :
  calculate_rsi (first :: later) period !! 0%nat = Some NaN.
Proof. reflexivity. Qed.

End FrameFacts.

(** ** Bars without volume *)

(** C9.  For 20 bars with every close equal to 100 and every volume equal
    to 0, whatever their highs and lows, the VWAP is NaN at every bar, the
    Entry check on the latest bar returns no-signal, and the whole run
    prints that there is no entry signal: nothing is raised. *)
Theorem flat_zero_volume_no_signal (df : frame) (high low : list num) :
  length high = 20%nat -> length low = 20%nat ->
  df !! "High_QQQ" = Some high ->
  df !! "Low_QQQ" = Some low ->
  df !! "Close_QQQ" = Some (replicate 20 (Fin 100)) ->
  df !! "Volume_QQQ" = Some (replicate 20 (Fin 0)) ->
  exists df',
    indicators df = ret df' /\
    df' !! "VWAP" = Some (replicate 20 NaN) /\
    check_entry_condition_latest (iloc_last df') = ret false /\
    entry_check_latest df = ret false /\
    run_strategy_check df = ([Print MsgNoEntrySignal], inr tt).
Proof.
  intros Hlh Hll Hh Hl Hc Hv.
  destruct (FrameFacts.indicators_columns df _ _ _ _ Hh Hl Hc Hv)
    as (df' & Hrun & Hvwap & Hema & Hrsi & Hclose).
  rewrite (FrameFacts.vwap_zero_volume high low (replicate 20 (Fin 100)) 20
             Hlh Hll eq_refl) in Hvwap.
  assert (Hentry : check_entry_condition_latest (iloc_last df') = ret false).
  { rewrite (entry_check_complete_row (iloc_last df')
               NaN (Fin 100) (Fin 100) NaN).
    - reflexivity.
    - rewrite (FrameFacts.iloc_last_lookup _ _ _ Hrsi). reflexivity.
    - rewrite (FrameFacts.iloc_last_lookup _ _ _ Hclose). reflexivity.
    - rewrite (FrameFacts.iloc_last_lookup _ _ _ Hema). reflexivity.
    - rewrite (FrameFacts.iloc_last_lookup _ _ _ Hvwap). reflexivity. }
  exists df'. repeat split; try assumption.
  - unfold entry_check_latest. rewrite Hrun. cbn [bind ret].
    rewrite Hentry. reflexivity.
  - destruct (FrameFacts.run_strategy_check_bars df _ _ _ _ Hh Hl Hc Hv)
      as (df2 & Hrun2 & ->); [discriminate |].
    rewrite Hrun in Hrun2. apply ret_inj in Hrun2. subst df2.
    rewrite Hentry. reflexivity.
Qed.

Lemma flat_zero_volume_no_signal_witness :
  length (replicate 20 (Fin 100)) = 20%nat /\
  flat_bars !! "Volume_QQQ" = Some (replicate 20 (Fin 0)) /\
  exists df',
    indicators flat_bars = ret df' /\
    df' !! "VWAP" = Some (replicate 20 NaN) /\
    check_entry_condition_latest (iloc_last df') = ret false /\
    entry_check_latest flat_bars = ret false /\
    run_strategy_check flat_bars = ([Print MsgNoEntrySignal], inr tt).
Proof.
  split; [reflexivity |]. split; [reflexivity |].
  apply (flat_zero_volume_no_signal flat_bars
           (replicate 20 (Fin 100)) (replicate 20 (Fin 100))
           eq_refl eq_refl eq_refl eq_refl eq_refl eq_refl).
Defined.

(** * Further properties of the code *)

(** ** The run as a whole *)

Module RunFacts.

Lemma first_missing_none (df : frame) :
  first_missing df = None ->
  exists high low close volume,
    df !! "High_QQQ" = Some high /\ df !! "Low_QQQ" = Some low /\
    df !! "Close_QQQ" = Some close /\ df !! "Volume_QQQ" = Some volume.
Proof.
  unfold first_missing, required_columns. cbn [List.find].
  repeat case_bool_decide; try discriminate. intros _.
  destruct (df !! "High_QQQ") as [h|]; [| congruence].
  destruct (df !! "Low_QQQ") as [l|]; [| congruence].
  destruct (df !! "Close_QQQ") as [c|]; [| congruence].
  destruct (df !! "Volume_QQQ") as [v|]; [| congruence].
  exists h, l, c, v. repeat split; reflexivity.
Qed.

(** The KeyError of lines 49-52 names the first column that is missing;
    when it is the volume, line 49 has already assigned Typical_Price. *)
Lemma vwap_block_missing (df : frame) (key : string) :
  first_missing df = Some key ->
  df !! key = None /\
  exists df_at,
    vwap_block df = (df_at, Some (KeyError key)) /\
    (key <> "Volume_QQQ" -> df_at = df) /\
    (key = "Volume_QQQ" ->
     exists high low close,
       df !! "High_QQQ" = Some high /\ df !! "Low_QQQ" = Some low /\
       df !! "Close_QQQ" = Some close /\
       df_at =
         <["Typical_Price" :=
             Series.div_scalar (Series.add (Series.add high low) close)
               (Fin 3)]> df).
Proof.
  unfold first_missing, required_columns. cbn [List.find].
  unfold vwap_block, in_place, assign_typical_price,
    assign_cumulative_tp_volume, getitem.
  case_bool_decide as Hh; [intros [= <-] | ].
  { split; [exact Hh |]. rewrite Hh. cbn [bind raise].
    exists df. repeat split; [discriminate]. }
  destruct (df !! "High_QQQ") as [h|]; [clear Hh | congruence].
  case_bool_decide as Hl; [intros [= <-] | ].
  { split; [exact Hl |]. rewrite Hl. cbn [bind ret raise].
    exists df. repeat split; [discriminate]. }
  destruct (df !! "Low_QQQ") as [l|]; [clear Hl | congruence].
  case_bool_decide as Hc; [intros [= <-] | ].
  { split; [exact Hc |]. rewrite Hc. cbn [bind ret raise].
    exists df. repeat split; [discriminate]. }
  destruct (df !! "Close_QQQ") as [c|]; [clear Hc | congruence].
  case_bool_decide as Hv; [intros [= <-] | discriminate].
  split; [exact Hv |]. cbn [bind ret].
  rewrite lookup_insert_eq. cbn [bind ret].
  rewrite lookup_insert_ne, Hv by discriminate. cbn [bind raise].
  eexists. split; [reflexivity |]. split; [congruence |].
  intros _. exists h, l, c. repeat split.
Qed.

Lemma add_vwap_missing (df : frame) (key : string) :
  first_missing df = Some key -> add_vwap df = raise (KeyError key).
Proof.
  intros Hmiss.
  destruct (vwap_block_missing df key Hmiss) as (_ & df_at & Hblock & _).
  unfold add_vwap. rewrite Hblock. reflexivity.
Qed.

(** Every Series operation keeps the number of rows. *)
Lemma length_ewm_loop (alpha : Q) (vals : list num) :
  forall st, length (Series.ewm_loop alpha st vals) = length vals.
Proof.
  induction vals as [| cur rest IH]; intros st; simpl; [| rewrite IH];
    reflexivity.
Qed.

Lemma length_ewm_mean (alpha : Q) (vals : list num) :
  length (Series.ewm_mean alpha vals) = length vals.
Proof.
  unfold Series.ewm_mean.
  rewrite <- (length_fmap Series.prep_value vals).
  fold (Series.prep_values vals).
  destruct (Series.prep_values vals) as [| x rest]; simpl;
    [| rewrite length_ewm_loop]; reflexivity.
Qed.

Lemma length_cumsum (s : list num) :
  length (Series.cumsum s) = length s.
Proof.
  unfold Series.cumsum. generalize (Fin 0).
  induction s as [| x t IH]; intros acc; simpl; [reflexivity |].
  destruct (Num.is_nan x); simpl; rewrite IH; reflexivity.
Qed.

Lemma length_diff (s : list num) : length (Series.diff s) = length s.
Proof.
  destruct s as [| x t]; simpl; [reflexivity |].
  rewrite length_zip_with. simpl. lia.
Qed.

Lemma length_calculate_rsi (data : list num) (period : Q) :
  length (calculate_rsi data period) = length data.
Proof.
  unfold calculate_rsi, Series.scalar_sub, Series.scalar_div,
    Series.scalar_add, Series.div, rsi_avg_gain, rsi_avg_loss, rsi_gain,
    rsi_loss, Series.abs, Series.mask, Series.lt_scalar, Series.gt_scalar,
    rsi_delta.
  rewrite !length_fmap, length_zip_with, !length_ewm_mean, length_fmap,
    !length_zip_with, !length_fmap, length_diff. lia.
Qed.

Lemma length_calculate_rsi_rows (data : list num) (period : Q) (n : nat) :
  length data = n -> length (calculate_rsi data period) = n.
Proof. intros <-. apply length_calculate_rsi. Qed.

Lemma length_ema_of (close : list num) : length (ema_of close) = length close.
Proof. apply length_ewm_mean. Qed.

Lemma length_vwap_of (high low close volume : list num) (n : nat) :
  length high = n -> length low = n -> length close = n ->
  length volume = n ->
  length (vwap_of high low close volume) = n.
Proof.
  intros Hh Hl Hc Hv.
  unfold vwap_of, Series.div, Series.mul, Series.div_scalar, Series.add.
  rewrite length_zip_with, !length_cumsum, length_zip_with, length_fmap,
    !length_zip_with, Hh, Hl, Hc, Hv. lia.
Qed.

Lemma last_of_length {A} (l : list A) (n : nat) :
  length l = n -> (0 < n)%nat -> exists x, last l = Some x.
Proof.
  intros Hl Hn. apply last_is_Some. intros ->. simpl in Hl. lia.
Qed.

(** The ways a run ends. *)
Lemma run_shapes (df : frame) :
  (frame_empty df = true /\
   run_strategy_check df =
     ([Print MsgCouldNotFetch],
      inl (UnboundLocalError "send_telegram_message")))
  \/
  (frame_empty df = false /\
   exists key df_at,
     first_missing df = Some key /\
     vwap_block df = (df_at, Some (KeyError key)) /\
     run_strategy_check df =
       ([Print (MsgColumnError (KeyError key));
         Print (MsgAvailableColumns df_at)],
        inl (UnboundLocalError "send_telegram_message")))
  \/
  (frame_empty df = false /\ first_missing df = None /\
   exists df',
     indicators df = ret df' /\
     ((frame_empty df' = true /\
       run_strategy_check df = ([Print MsgNoDataPoints], inr tt)) \/
      (frame_empty df' = false /\
       check_entry_condition_latest (iloc_last df') = ret true /\
       run_strategy_check df =
         ([Print (MsgEntrySignal (iloc_last df'));
           SendTelegram (MsgEntrySignal (iloc_last df'))], inr tt)) \/
      (frame_empty df' = false /\
       check_entry_condition_latest (iloc_last df') = ret false /\
       run_strategy_check df = ([Print MsgNoEntrySignal], inr tt)) \/
      (frame_empty df' = false /\
       exists key,
         check_entry_condition_latest (iloc_last df') =
           ([Print (MsgEntryCheckError (KeyError key))], inr false) /\
         run_strategy_check df =
           ([Print (MsgEntryCheckError (KeyError key));
             Print MsgNoEntrySignal], inr tt)))).
Proof.
  unfold run_strategy_check.
  destruct (frame_empty df) eqn:Hempty; [left; split; reflexivity | right].
  destruct (first_missing df) as [key|] eqn:Hmiss.
  - left. split; [reflexivity |].
    destruct (vwap_block_missing df key Hmiss) as (_ & df_at & Hblock & _).
    exists key, df_at. split; [reflexivity |]. split; [exact Hblock |].
    rewrite Hblock. reflexivity.
  - right. split; [reflexivity |]. split; [reflexivity |].
    destruct (first_missing_none df Hmiss)
      as (h & l & c & v & Hh & Hl & Hc & Hv).
    destruct (FrameFacts.add_vwap_columns df h l c v Hh Hl Hc Hv)
      as (df1 & Hblock & Hvw & _ & Hclose).
    destruct (FrameFacts.add_ema_rsi_columns c df1 Hclose)
      as (df' & He & _).
    exists df'. split.
    { unfold indicators. rewrite Hvw. cbn [bind ret]. rewrite He.
      reflexivity. }
    rewrite Hblock, He. cbn [bind ret].
    destruct (frame_empty df') eqn:Hempty'; [left; split; reflexivity |].
    right.
    destruct (entry_check_shape (iloc_last df'))
      as [(rsi & close & ema & vwap & _ & _ & _ & _ & Heq)
         | (key & _ & Heq)]; rewrite Heq.
    + destruct (_ && _); [left | right; left];
        (split; [reflexivity |]); split; reflexivity.
    + right. right. split; [reflexivity |]. exists key.
      split; reflexivity.
Qed.

End RunFacts.

(** X1.  How a run ends.  It returns normally exactly when the frame has
    rows and the four columns; otherwise it raises UnboundLocalError, because
    lines 27 and 56 call [send_telegram_message] before line 123 has bound
    it, and no failure alert is ever sent.  No KeyError escapes a run, and
    a run sends at most one Telegram message. *)
Theorem run_outcomes (df : frame) :
  exists out result,
    run_strategy_check df = (out, result) /\
    (result = inr tt \/
     result = inl (UnboundLocalError "send_telegram_message")) /\
    (result = inr tt <-> frame_empty df = false /\ first_missing df = None)
    /\
    (frame_empty df = true -> out = [Print MsgCouldNotFetch]) /\
    (result <> inr tt -> List.filter is_telegram out = []) /\
    (length (List.filter is_telegram out) <= 1)%nat.
Proof.
  destruct (RunFacts.run_shapes df)
    as [[Hempty ->]
       | [(Hempty & key & df_at & Hmiss & _ & ->)
         | (Hempty & Hmiss & df' & _ & H)]].
  - do 2 eexists. split; [reflexivity |].
    split; [right; reflexivity |].
    split; [split; [discriminate | intros [? _]; congruence] |].
    split; [reflexivity |]. split; [reflexivity | simpl; lia].
  - do 2 eexists. split; [reflexivity |].
    split; [right; reflexivity |].
    split; [split; [discriminate | intros [_ ?]; congruence] |].
    split; [congruence |]. split; [reflexivity | simpl; lia].
  - destruct H as [[_ ->] | [(_ & _ & ->) | [(_ & _ & ->) |
                   (_ & key & _ & ->)]]];
      do 2 eexists; (split; [reflexivity |]);
      (split; [left; reflexivity |]);
      (split; [split; [intros _; split; assumption | reflexivity] |]);
      (split; [congruence |]);
      (split; [congruence | simpl; lia]).
Qed.

(** X2.  On a frame that has rows but lacks one of the columns High_QQQ,
    Low_QQQ, Close_QQQ, Volume_QQQ, lines 49-52 raise KeyError for the first
    missing one.  The run prints that error, prints the columns of the
    frame as those lines left it (with Typical_Price already added when
    only the volume is missing), and then raises UnboundLocalError at
    line 56: no alert is sent, no indicator computed, no entry check
    made. *)
Theorem run_missing_column_raises (df : frame) (key : string) :
  frame_empty df = false ->
  first_missing df = Some key ->
  df !! key = None /\
  indicators df = raise (KeyError key) /\
  exists df_at,
    run_strategy_check df =
      ([Print (MsgColumnError (KeyError key));
        Print (MsgAvailableColumns df_at)],
       inl (UnboundLocalError "send_telegram_message")) /\
    (key <> "Volume_QQQ" -> df_at = df) /\
    (key = "Volume_QQQ" ->
     exists high low close,
       df !! "High_QQQ" = Some high /\ df !! "Low_QQQ" = Some low /\
       df !! "Close_QQQ" = Some close /\
       df_at =
         <["Typical_Price" :=
             Series.div_scalar (Series.add (Series.add high low) close)
               (Fin 3)]> df).
Proof.
  intros Hempty Hmiss.
  destruct (RunFacts.vwap_block_missing df key Hmiss)
    as (Hnone & df_at & Hblock & Hsame & Hvolume).
  split; [exact Hnone |]. split.
  - unfold indicators.
    rewrite (RunFacts.add_vwap_missing df key Hmiss). reflexivity.
  - exists df_at. split; [| split; assumption].
    unfold run_strategy_check. rewrite Hempty, Hblock. reflexivity.
Qed.

Lemma run_missing_column_raises_witness :
  let df : frame :=
    <["High_QQQ" := [Fin 101]]> (<["Low_QQQ" := [Fin 99]]>
      {["Close_QQQ" := [Fin 100]]}) in
  frame_empty df = false /\ first_missing df = Some "Volume_QQQ" /\
  exists df_at,
    run_strategy_check df =
      ([Print (MsgColumnError (KeyError "Volume_QQQ"));
        Print (MsgAvailableColumns df_at)],
       inl (UnboundLocalError "send_telegram_message")) /\
    df_at !! "Typical_Price" = Some [Fin ((101 + 99 + 100) / 3)].
Proof.
  intros df.
  assert (Hempty : frame_empty df = false) by reflexivity.
  assert (Hmiss : first_missing df = Some "Volume_QQQ") by reflexivity.
  split; [exact Hempty |]. split; [exact Hmiss |].
  destruct (run_missing_column_raises df "Volume_QQQ" Hempty Hmiss)
    as (_ & _ & df_at & Hrun & _ & Hvolume).
  exists df_at. split; [exact Hrun |].
  destruct (Hvolume eq_refl) as (h & l & c & Hh & Hl & Hc & ->).
  rewrite lookup_insert_eq.
  vm_compute in Hh, Hl, Hc.
  injection Hh as <-. injection Hl as <-. injection Hc as <-.
  reflexivity.
Defined.

(** X3.  On bars (the four columns present, each with the same positive
    number of rows) the run computes the indicators and decides on the
    latest row alone: when RSI > 45, close > EMA and close > VWAP hold
    there it prints the entry signal and sends it once by Telegram;
    otherwise it only prints that there is no entry signal.  The messages
    of the two other branches (no data points, KeyError in the entry check)
    cannot appear. *)
Theorem run_on_bars
    (df : frame) (n : nat) (high low close volume : list num) :
  (0 < n)%nat ->
  length high = n -> length low = n -> length close = n ->
  length volume = n ->
  df !! "High_QQQ" = Some high -> df !! "Low_QQQ" = Some low ->
  df !! "Close_QQQ" = Some close -> df !! "Volume_QQQ" = Some volume ->
  exists df' rsi price ema vwap,
    indicators df = ret df' /\
    last (calculate_rsi close RSI_PERIOD) = Some rsi /\
    last close = Some price /\
    last (ema_of close) = Some ema /\
    last (vwap_of high low close volume) = Some vwap /\
    (Num.lt (Fin 45) rsi /\ Num.lt ema price /\ Num.lt vwap price ->
     run_strategy_check df =
       ([Print (MsgEntrySignal (iloc_last df'));
         SendTelegram (MsgEntrySignal (iloc_last df'))], inr tt)) /\
    (~ (Num.lt (Fin 45) rsi /\ Num.lt ema price /\ Num.lt vwap price) ->
     run_strategy_check df = ([Print MsgNoEntrySignal], inr tt)).
Proof.
  intros Hn Hlh Hll Hlc Hlv Hh Hl Hc Hv.
  assert (Hne : close <> []) by (intros ->; simpl in Hlc; lia).
  destruct (RunFacts.last_of_length (calculate_rsi close RSI_PERIOD) n)
    as [rsi Hr]; [rewrite RunFacts.length_calculate_rsi; exact Hlc | exact Hn |].
  destruct (RunFacts.last_of_length close n Hlc Hn) as [price Hp].
  destruct (RunFacts.last_of_length (ema_of close) n)
    as [ema He]; [rewrite RunFacts.length_ema_of; exact Hlc | exact Hn |].
  destruct (RunFacts.last_of_length (vwap_of high low close volume) n)
    as [vwap Hw]; [apply RunFacts.length_vwap_of; assumption | exact Hn |].
  destruct (FrameFacts.indicators_columns df _ _ _ _ Hh Hl Hc Hv)
    as (df' & Hrun & Hvwap & Hema & Hrsi & Hclose).
  destruct (FrameFacts.run_strategy_check_bars df _ _ _ _ Hh Hl Hc Hv Hne)
    as (df2 & Hrun2 & ->).
  rewrite Hrun in Hrun2. apply ret_inj in Hrun2. subst df2.
  exists df', rsi, price, ema, vwap.
  rewrite (entry_check_complete_row (iloc_last df') rsi price ema vwap)
    by (erewrite FrameFacts.iloc_last_lookup by eassumption; assumption).
  do 5 (split; [assumption |]).
  split.
  - intros (H1 & H2 & H3).
    apply NumFacts.gtb_lt in H1, H2, H3. rewrite H1, H2, H3. reflexivity.
  - intros Hnot.
    destruct (Num.gtb rsi (Fin 45) && Num.gtb price ema
              && Num.gtb price vwap) eqn:E; [| reflexivity].
    exfalso. apply Hnot.
    apply andb_true_iff in E as [E H3]. apply andb_true_iff in E as [H1 H2].
    apply NumFacts.gtb_lt in H1, H2, H3. tauto.
Qed.

Lemma run_on_bars_witness :
  exists df',
    indicators rising_bars = ret df' /\
    run_strategy_check rising_bars =
      ([Print (MsgEntrySignal (iloc_last df'));
        SendTelegram (MsgEntrySignal (iloc_last df'))], inr tt).
Proof.
  destruct (run_on_bars rising_bars 20
              (Fin <$> rising_closes) (Fin <$> rising_closes)
              (Fin <$> rising_closes) (replicate 20 (Fin 1000))
              ltac:(lia) eq_refl eq_refl eq_refl eq_refl
              eq_refl eq_refl eq_refl eq_refl)
    as (df' & rsi & price & ema & vwap & Hrun & Hr & Hp & He & Hw & Hyes & _).
  exists df'. split; [exact Hrun |]. apply Hyes.
  vm_compute in Hr, Hp, He, Hw.
  injection Hr as <-. injection Hp as <-. injection He as <-.
  injection Hw as <-.
  repeat split.
Defined.

(** ** The frame of indicators *)

Module IndicatorFacts.

(** The frame lines 49-68 end with, column by column. *)
Lemma indicators_explicit
    (df : frame) (high low close volume : list num) :
  df !! "High_QQQ" = Some high -> df !! "Low_QQQ" = Some low ->
  df !! "Close_QQQ" = Some close -> df !! "Volume_QQQ" = Some volume ->
  exists typical cumulative_tp cumulative_volume,
    indicators df =
    ret (delete "Cumulative_Volume" (delete "Cumulative_TP_Volume"
          (delete "Typical_Price"
            (<["RSI" := calculate_rsi close RSI_PERIOD]>
              (<["EMA" := ema_of close]>
                (<["VWAP" := vwap_of high low close volume]>
                  (<["Cumulative_Volume" := cumulative_volume]>
                    (<["Cumulative_TP_Volume" := cumulative_tp]>
                      (<["Typical_Price" := typical]> df))))))))).
Proof.
  intros Hh Hl Hc Hv.
  destruct (FrameFacts.vwap_block_columns df _ _ _ _ Hh Hl Hc Hv)
    as (tp & ctp & cv & Hblock).
  unfold indicators, add_vwap. rewrite Hblock. cbn [bind ret].
  unfold add_ema_rsi, getitem.
  rewrite !lookup_insert_ne, Hc by discriminate. cbn [bind ret app].
  rewrite !lookup_insert_ne, Hc by discriminate. cbn [bind ret app].
  exists tp, ctp, cv. reflexivity.
Qed.

End IndicatorFacts.

(** X4.  The frame of indicators holds the new columns VWAP, EMA and RSI,
    computed from the four input columns; the three temporary columns are
    gone (also when the input had columns of these names); every other
    column is the input's, unchanged. *)
Theorem indicators_frame
    (df : frame) (high low close volume : list num) :
  df !! "High_QQQ" = Some high -> df !! "Low_QQQ" = Some low ->
  df !! "Close_QQQ" = Some close -> df !! "Volume_QQQ" = Some volume ->
  exists df',
    indicators df = ret df' /\
    df' !! "VWAP" = Some (vwap_of high low close volume) /\
    df' !! "EMA" = Some (ema_of close) /\
    df' !! "RSI" = Some (calculate_rsi close RSI_PERIOD) /\
    (forall key, key ∈ temporary_columns -> df' !! key = None) /\
    (forall key,
       key ∉ temporary_columns -> key <> "VWAP" -> key <> "EMA" ->
       key <> "RSI" -> df' !! key = df !! key).
Proof.
  intros Hh Hl Hc Hv.
  destruct (IndicatorFacts.indicators_explicit df _ _ _ _ Hh Hl Hc Hv)
    as (tp & ctp & cv & ->).
  eexists. split; [reflexivity |].
  repeat split.
  - rewrite !lookup_delete_ne, !lookup_insert_ne, lookup_insert_eq
      by discriminate. reflexivity.
  - rewrite !lookup_delete_ne, lookup_insert_ne, lookup_insert_eq
      by discriminate. reflexivity.
  - rewrite !lookup_delete_ne, lookup_insert_eq by discriminate.
    reflexivity.
  - intros key Hkey. apply list_elem_of_In in Hkey. simpl in Hkey.
    rewrite !lookup_delete. repeat case_decide; try reflexivity.
    intuition congruence.
  - intros key Hkey Hv' He' Hr'.
    assert (Ht : key <> "Typical_Price" /\ key <> "Cumulative_TP_Volume" /\
                 key <> "Cumulative_Volume")
      by (repeat split; intros ->; apply Hkey, list_elem_of_In; simpl;
          tauto).
    destruct Ht as (Ht1 & Ht2 & Ht3).
    rewrite !lookup_delete_ne, !lookup_insert_ne by congruence.
    reflexivity.
Qed.

Lemma indicators_frame_witness :
  exists df',
    indicators rising_bars = ret df' /\
    df' !! "Typical_Price" = None /\
    df' !! "High_QQQ" = Some (Fin <$> rising_closes).
Proof.
  destruct (indicators_frame rising_bars
              (Fin <$> rising_closes) (Fin <$> rising_closes)
              (Fin <$> rising_closes) (replicate 20 (Fin 1000))
              eq_refl eq_refl eq_refl eq_refl)
    as (df' & Hrun & _ & _ & _ & Hgone & Hkept).
  exists df'. split; [exact Hrun |]. split.
  - apply Hgone, list_elem_of_In. simpl. tauto.
  - rewrite Hkept; [reflexivity | | discriminate ..].
    intros Hin. apply list_elem_of_In in Hin. simpl in Hin.
    intuition discriminate.
Defined.

(** X5.  Alignment: when every column of the input frame has [n] rows, so
    has every column of the frame of indicators. *)
Theorem indicators_keeps_rows
    (df : frame) (n : nat) (high low close volume : list num) :
  frame_rows n df ->
  df !! "High_QQQ" = Some high -> df !! "Low_QQQ" = Some low ->
  df !! "Close_QQQ" = Some close -> df !! "Volume_QQQ" = Some volume ->
  exists df', indicators df = ret df' /\ frame_rows n df'.
Proof.
  intros Hrows Hh Hl Hc Hv.
  destruct (IndicatorFacts.indicators_explicit df _ _ _ _ Hh Hl Hc Hv)
    as (tp & ctp & cv & ->).
  eexists. split; [reflexivity |].
  intros key column. rewrite !lookup_delete.
  repeat case_decide; try discriminate.
  rewrite !lookup_insert. repeat case_decide; try congruence.
  - intros [= <-]. apply RunFacts.length_calculate_rsi_rows.
    exact (Hrows _ _ Hc).
  - intros [= <-]. rewrite RunFacts.length_ema_of. exact (Hrows _ _ Hc).
  - intros [= <-]. apply RunFacts.length_vwap_of;
      [exact (Hrows _ _ Hh) | exact (Hrows _ _ Hl) | exact (Hrows _ _ Hc)
      | exact (Hrows _ _ Hv)].
  - apply Hrows.
Qed.

Lemma indicators_keeps_rows_witness :
  frame_rows 20 rising_bars /\
  exists df', indicators rising_bars = ret df' /\ frame_rows 20 df'.
Proof.
  assert (Hrows : frame_rows 20 rising_bars).
  { intros key column. unfold rising_bars, bars. cbn zeta.
    rewrite !lookup_insert, lookup_empty.
    repeat case_decide; intros [= <-]; reflexivity. }
  split; [exact Hrows |].
  apply (indicators_keeps_rows rising_bars 20
           (Fin <$> rising_closes) (Fin <$> rising_closes)
           (Fin <$> rising_closes) (replicate 20 (Fin 1000))
           Hrows eq_refl eq_refl eq_refl eq_refl).
Defined.

(** ** Series of finite prices *)

Module ShapeFacts.

Lemma zip_sub_Fin (cs : list Q) :
  forall c0,
    zip_with Num.sub (Fin <$> cs) (Fin c0 :: (Fin <$> cs))
    = Fin <$> qdiffs c0 cs.
Proof.
  induction cs as [| x t IH]; intros c0; [reflexivity |].
  cbn [fmap list_fmap zip_with qdiffs]. f_equal. apply IH.
Qed.

Lemma diff_Fin (c0 : Q) (cs : list Q) :
  Series.diff (Fin <$> c0 :: cs) = NaN :: (Fin <$> qdiffs c0 cs).
Proof.
  cbn [fmap list_fmap Series.diff]. f_equal. apply zip_sub_Fin.
Qed.

Lemma zip_with_self {A B C} (f : A -> B -> C) (g : A -> B) (l : list A) :
  zip_with f l (g <$> l) = (fun x => f x (g x)) <$> l.
Proof.
  induction l as [| x t IH]; [reflexivity |].
  cbn [fmap list_fmap zip_with]. f_equal. exact IH.
Qed.

Lemma gain_Fin (c0 : Q) (cs : list Q) :
  rsi_gain (Fin <$> c0 :: cs) = NaN :: (Fin <$> (qgain <$> qdiffs c0 cs)).
Proof.
  unfold rsi_gain, rsi_delta, Series.mask, Series.lt_scalar.
  rewrite zip_with_self, diff_Fin. cbn [fmap list_fmap].
  f_equal. rewrite <- !list_fmap_compose. apply list_fmap_ext.
  intros i d _. cbn. unfold qgain. destruct (Num.Qltb d 0); reflexivity.
Qed.

Lemma loss_Fin (c0 : Q) (cs : list Q) :
  rsi_loss (Fin <$> c0 :: cs) = NaN :: (Fin <$> (qloss <$> qdiffs c0 cs)).
Proof.
  unfold rsi_loss, rsi_delta, Series.abs, Series.mask, Series.gt_scalar.
  rewrite zip_with_self, diff_Fin. cbn [fmap list_fmap].
  f_equal. rewrite <- !list_fmap_compose. apply list_fmap_ext.
  intros i d _. cbn. unfold qloss. destruct (Num.Qltb 0 d); reflexivity.
Qed.

(** One step of the ewm loop on finite values is a convex combination. *)
Lemma convex_step (alpha o w c : Q) :
  o == 1 ->
  (o * (1 - alpha) * w + alpha * c) / (o * (1 - alpha) + alpha)
  == (1 - alpha) * w + alpha * c.
Proof.
  intros Ho.
  assert (Hd : o * (1 - alpha) + alpha == 1) by (rewrite Ho; ring).
  rewrite Hd, Ho. field.
Qed.

(** A property of rationals that convex combinations keep is kept by the
    ewm loop on finite observations. *)
Lemma ewm_loop_invariant (P : Q -> Prop) (alpha : Q) :
  (forall w c q, P w -> P c -> q == (1 - alpha) * w + alpha * c -> P q) ->
  forall xs, Forall P xs ->
  forall (w o : Q) (n : nat),
    o == 1 -> P w ->
    exists rs,
      Series.ewm_loop alpha (Series.EwmState (Fin w) o (S n)) (Fin <$> xs)
        = Fin <$> rs /\
      length rs = length xs /\ Forall P rs.
Proof.
  intros Hconvex xs Hxs.
  induction Hxs as [| c xs Hc Hxs IH]; intros w o n Ho Hw.
  - exists []. repeat split; constructor.
  - cbn [fmap list_fmap Series.ewm_loop].
    unfold Series.ewm_step.
    cbn [Series.weighted Series.old_wt Series.nobs Num.is_nan negb].
    assert (Hd : Qeq_bool (o * (1 - alpha) + alpha) 0 = false)
      by (apply NumFacts.Qeq_bool_false; rewrite Ho; lra).
    destruct (Num.neqb (Fin w) (Fin c));
      cbn [Num.mul Num.add Num.div]; rewrite ?Hd;
      replace (S n + 1)%nat with (S (S n)) by lia;
      unfold Series.ewm_output at 1; cbn [Series.nobs Series.weighted];
      change (Series.ewm_minp <=? S (S n))%nat with true;
      cbn iota.
    + match goal with
      | |- context [Series.EwmState (Fin ?w') _ _] =>
          assert (Hw' : P w')
            by (apply (Hconvex w c); [exact Hw | exact Hc |];
                apply convex_step; exact Ho);
          destruct (IH w' 1 (S n) (Qeq_refl 1) Hw')
            as (rs & -> & Hlen & Hrs);
          exists (w' :: rs)
      end.
      repeat split; [simpl; lia | constructor; assumption].
    + destruct (IH w 1 (S n) (Qeq_refl 1) Hw) as (rs & -> & Hlen & Hrs).
      exists (w :: rs).
      repeat split; [simpl; lia | constructor; assumption].
Qed.

(** The ewm mean of a Series that starts with one NaN and goes on with
    finite values. *)
Lemma ewm_mean_after_nan (P : Q -> Prop) (alpha : Q) (xs : list Q) :
  (forall w c q, P w -> P c -> q == (1 - alpha) * w + alpha * c -> P q) ->
  Forall P xs ->
  exists rs,
    Series.ewm_mean alpha (NaN :: (Fin <$> xs)) = NaN :: (Fin <$> rs) /\
    length rs = length xs /\ Forall P rs.
Proof.
  intros Hconvex Hxs. rewrite RsiFacts.ewm_mean_nan_Fin.
  cbn [Series.ewm Num.is_nan].
  unfold Series.ewm_output at 1. cbn [Series.nobs].
  change (Series.ewm_minp <=? 0)%nat with false. cbn iota.
  destruct Hxs as [| x xs Hx Hxs].
  - exists []. repeat split; constructor.
  - cbn [fmap list_fmap Series.ewm_loop].
    unfold Series.ewm_step, Series.ewm_output at 1.
    cbn [Series.weighted Series.old_wt Series.nobs Num.is_nan negb].
    change (Series.ewm_minp <=? 0 + 1)%nat with true. cbn iota.
    destruct (ewm_loop_invariant P alpha Hconvex xs Hxs x 1 0
                (Qeq_refl 1) Hx) as (rs & Hrs & Hlen & HP).
    exists (x :: rs). change (0 + 1)%nat with 1%nat. rewrite Hrs.
    repeat split; [simpl; lia | constructor; assumption].
Qed.

Lemma chain_diffs (R : Q -> Q -> Prop) (D : Q -> Prop) (cs : list Q) :
  (forall a b, R a b -> D (b + - a)) ->
  forall c0, chain R c0 cs -> Forall D (qdiffs c0 cs).
Proof.
  intros HD. induction cs as [| x t IH]; intros c0 Hch; [constructor |].
  destruct Hch as [Hx Ht]. cbn [qdiffs].
  constructor; [apply HD; exact Hx | apply IH; exact Ht].
Qed.

Lemma period_convex_pos (w c q : Q) :
  0 < w -> 0 < c ->
  q == (1 - Series.alpha_of_com (RSI_PERIOD - 1)) * w
       + Series.alpha_of_com (RSI_PERIOD - 1) * c ->
  0 < q.
Proof.
  intros Hw Hc Hq. destruct RsiFacts.period_alpha as [Ha1 Ha2].
  rewrite Hq. nra.
Qed.

Lemma convex_zero (alpha w c q : Q) :
  w == 0 -> c == 0 -> q == (1 - alpha) * w + alpha * c -> q == 0.
Proof. intros Hw Hc Hq. rewrite Hq, Hw, Hc. ring. Qed.

Lemma rsi_of_no_loss (g l : Q) :
  0 < g -> l == 0 -> Num.same (rsi_of (Fin g) (Fin l)) (Fin 100).
Proof.
  intros Hg Hl. unfold rsi_of. cbn [Num.div].
  apply Qeq_bool_iff in Hl. rewrite Hl.
  assert (Hg0 : Qeq_bool g 0 = false)
    by (apply NumFacts.Qeq_bool_false; lra).
  apply NumFacts.Qltb_lt in Hg. rewrite Hg0, Hg. simpl. lra.
Qed.

Lemma rsi_of_no_gain (g l : Q) :
  g == 0 -> 0 < l -> Num.same (rsi_of (Fin g) (Fin l)) (Fin 0).
Proof.
  intros Hg Hl. unfold rsi_of. cbn [Num.div].
  assert (Hl0 : Qeq_bool l 0 = false)
    by (apply NumFacts.Qeq_bool_false; lra).
  rewrite Hl0. cbn [Num.add Num.div].
  assert (Hrs : g / l == 0) by (rewrite Hg; unfold Qdiv; ring).
  assert (Hd : Qeq_bool (1 + g / l) 0 = false)
    by (apply NumFacts.Qeq_bool_false; rewrite Hrs; lra).
  rewrite Hd. simpl. rewrite Hrs. field.
Qed.

Lemma rsi_of_flat (g l : Q) :
  g == 0 -> l == 0 -> rsi_of (Fin g) (Fin l) = NaN.
Proof.
  intros Hg Hl. unfold rsi_of. cbn [Num.div].
  apply Qeq_bool_iff in Hg, Hl. rewrite Hl, Hg. reflexivity.
Qed.

(** The RSI at the second bar, from the first price difference. *)
Lemma rsi_second_bar (c0 c1 : Q) (cs : list Q) :
  calculate_rsi (Fin <$> c0 :: c1 :: cs) RSI_PERIOD !! 1%nat
  = Some (rsi_of (Fin (qgain (c1 + - c0))) (Fin (qloss (c1 + - c0)))).
Proof.
  apply RsiFacts.calculate_rsi_lookup.
  - unfold rsi_avg_gain. rewrite gain_Fin, RsiFacts.ewm_mean_nan_Fin.
    reflexivity.
  - unfold rsi_avg_loss. rewrite loss_Fin, RsiFacts.ewm_mean_nan_Fin.
    reflexivity.
Qed.

Lemma rsi_second_bar_cases (c0 c1 : Q) (cs : list Q) :
  exists r,
    calculate_rsi (Fin <$> c0 :: c1 :: cs) RSI_PERIOD !! 1%nat = Some r /\
    (c0 < c1 -> Num.same r (Fin 100)) /\
    (c1 < c0 -> Num.same r (Fin 0)) /\
    (c0 == c1 -> r = NaN).
Proof.
  eexists. split; [apply rsi_second_bar |].
  unfold qgain, qloss. split; [| split]; intros H.
  - assert (H1 : Num.Qltb (c1 + - c0) 0 = false).
    { destruct (Num.Qltb (c1 + - c0) 0) eqn:E; [| reflexivity].
      apply NumFacts.Qltb_lt in E. lra. }
    assert (H2 : Num.Qltb 0 (c1 + - c0) = true)
      by (apply NumFacts.Qltb_lt; lra).
    rewrite H1, H2. apply rsi_of_no_loss; [lra | reflexivity].
  - assert (H1 : Num.Qltb (c1 + - c0) 0 = true)
      by (apply NumFacts.Qltb_lt; lra).
    assert (H2 : Num.Qltb 0 (c1 + - c0) = false).
    { destruct (Num.Qltb 0 (c1 + - c0)) eqn:E; [| reflexivity].
      apply NumFacts.Qltb_lt in E. lra. }
    rewrite H1, H2. apply rsi_of_no_gain; [reflexivity |].
    rewrite Qabs_neg by lra. lra.
  - assert (Hd : c1 + - c0 == 0) by (rewrite H; ring).
    apply rsi_of_flat.
    + destruct (Num.Qltb (c1 + - c0) 0); [reflexivity | exact Hd].
    + destruct (Num.Qltb 0 (c1 + - c0)); [reflexivity |].
      rewrite Hd. reflexivity.
Qed.

(** The RSI of finite closes, from what is known of the gains and of the
    losses. *)
Lemma rsi_finite_series (Pg Pl : Q -> Prop) (R : num -> Prop)
    (c0 : Q) (cs : list Q) :
  let alpha := Series.alpha_of_com (RSI_PERIOD - 1) in
  (forall w c q, Pg w -> Pg c -> q == (1 - alpha) * w + alpha * c -> Pg q) ->
  (forall w c q, Pl w -> Pl c -> q == (1 - alpha) * w + alpha * c -> Pl q) ->
  Forall Pg (qgain <$> qdiffs c0 cs) ->
  Forall Pl (qloss <$> qdiffs c0 cs) ->
  (forall g l, Pg g -> Pl l -> R (rsi_of (Fin g) (Fin l))) ->
  exists rest,
    calculate_rsi (Fin <$> c0 :: cs) RSI_PERIOD = NaN :: rest /\
    length rest = length cs /\ Forall R rest.
Proof.
  intros alpha Hcg Hcl Hg Hl HR. subst alpha.
  unfold calculate_rsi, rsi_avg_gain, rsi_avg_loss.
  rewrite gain_Fin, loss_Fin.
  destruct (ewm_mean_after_nan Pg _ _ Hcg Hg) as (gs & -> & Hlg & HPg).
  destruct (ewm_mean_after_nan Pl _ _ Hcl Hl) as (ls & -> & Hll & HPl).
  rewrite length_fmap in Hlg, Hll.
  assert (Hq : length (qdiffs c0 cs) = length cs).
  { clear. revert c0. induction cs as [| x t IH]; intros c0; simpl;
      [| rewrite IH]; reflexivity. }
  unfold Series.scalar_sub, Series.scalar_div, Series.scalar_add, Series.div.
  cbn [zip_with fmap list_fmap].
  eexists. split; [reflexivity |]. split.
  - rewrite !length_fmap, length_zip_with, !length_fmap. lia.
  - rewrite <- !list_fmap_compose. apply Forall_fmap.
    apply (RsiFacts.Forall_zip_with
             (fun x => exists g, x = Fin g /\ Pg g)
             (fun x => exists l, x = Fin l /\ Pl l)).
    + intros x y (g & -> & Hg') (l & -> & Hl'). apply (HR g l Hg' Hl').
    + apply Forall_fmap. eapply Forall_impl; [exact HPg |].
      intros g Hg'. exists g. split; [reflexivity | exact Hg'].
    + apply Forall_fmap. eapply Forall_impl; [exact HPl |].
      intros l Hl'. exists l. split; [reflexivity | exact Hl'].
Qed.

End ShapeFacts.

(** X6.  On strictly rising finite closes, within the bound that keeps
    their differences from overflowing, the RSI is NaN at the first bar and
    exactly 100 at every later bar: there is no loss to average. *)
Theorem rsi_rising_is_100 (c0 : Q) (cs : list Q) :
  Forall within_binary64 (c0 :: cs) ->
  rising c0 cs ->
  exists rest,
    calculate_rsi (Fin <$> c0 :: cs) RSI_PERIOD = NaN :: rest /\
    length rest = length cs /\
    Forall (fun r => Num.same r (Fin 100)) rest.
Proof.
  intros _ Hr.
  apply (ShapeFacts.rsi_finite_series (fun g => 0 < g) (fun l => l == 0)).
  - apply ShapeFacts.period_convex_pos.
  - apply ShapeFacts.convex_zero.
  - apply Forall_fmap.
    eapply Forall_impl;
      [apply (ShapeFacts.chain_diffs Qlt (fun d => 0 < d)); [| exact Hr] |].
    + intros a b Hab. lra.
    + intros d Hd. cbn beta in Hd. unfold compose. cbn beta. unfold qgain.
      destruct (Num.Qltb d 0) eqn:E; [| exact Hd].
      apply NumFacts.Qltb_lt in E. lra.
  - apply Forall_fmap.
    eapply Forall_impl;
      [apply (ShapeFacts.chain_diffs Qlt (fun d => 0 < d)); [| exact Hr] |].
    + intros a b Hab. lra.
    + intros d Hd. cbn beta in Hd. unfold compose. cbn beta. unfold qloss.
      apply NumFacts.Qltb_lt in Hd. rewrite Hd. reflexivity.
  - intros g l Hg Hl. apply ShapeFacts.rsi_of_no_loss; assumption.
Qed.

Lemma rsi_rising_is_100_witness :
  Forall within_binary64 rising_closes /\
  rising 100 (tail rising_closes) /\
  exists rest,
    calculate_rsi (Fin <$> rising_closes) RSI_PERIOD = NaN :: rest /\
    length rest = 19%nat /\
    Forall (fun r => Num.same r (Fin 100)) rest.
Proof.
  assert (Hb : Forall within_binary64 rising_closes)
    by (repeat constructor; discriminate).
  assert (Hr : rising 100 (tail rising_closes))
    by (repeat split; reflexivity).
  split; [exact Hb |]. split; [exact Hr |].
  apply (rsi_rising_is_100 100 (tail rising_closes) Hb Hr).
Defined.

(** X7.  On strictly falling finite closes, within the bound that keeps
    their differences from overflowing, the RSI is NaN at the first bar and
    0 at every later bar. *)
Theorem rsi_falling_is_0 (c0 : Q) (cs : list Q) :
  Forall within_binary64 (c0 :: cs) ->
  falling c0 cs ->
  exists rest,
    calculate_rsi (Fin <$> c0 :: cs) RSI_PERIOD = NaN :: rest /\
    length rest = length cs /\
    Forall (fun r => Num.same r (Fin 0)) rest.
Proof.
  intros _ Hf.
  apply (ShapeFacts.rsi_finite_series (fun g => g == 0) (fun l => 0 < l)).
  - apply ShapeFacts.convex_zero.
  - apply ShapeFacts.period_convex_pos.
  - apply Forall_fmap.
    eapply Forall_impl;
      [apply (ShapeFacts.chain_diffs (fun a b => b < a) (fun d => d < 0));
       [| exact Hf] |].
    + intros a b Hab. lra.
    + intros d Hd. cbn beta in Hd. unfold compose. cbn beta. unfold qgain.
      apply NumFacts.Qltb_lt in Hd. rewrite Hd. reflexivity.
  - apply Forall_fmap.
    eapply Forall_impl;
      [apply (ShapeFacts.chain_diffs (fun a b => b < a) (fun d => d < 0));
       [| exact Hf] |].
    + intros a b Hab. lra.
    + intros d Hd. cbn beta in Hd. unfold compose. cbn beta. unfold qloss.
      destruct (Num.Qltb 0 d) eqn:E; [apply NumFacts.Qltb_lt in E; lra |].
      rewrite Qabs_neg by lra. lra.
  - intros g l Hg Hl. apply ShapeFacts.rsi_of_no_gain; assumption.
Qed.

Lemma rsi_falling_is_0_witness :
  Forall within_binary64 [103; 102; 100; 99] /\
  falling 103 [102; 100; 99] /\
  exists rest,
    calculate_rsi (Fin <$> [103; 102; 100; 99]) RSI_PERIOD = NaN :: rest /\
    length rest = 3%nat /\
    Forall (fun r => Num.same r (Fin 0)) rest.
Proof.
  assert (Hb : Forall within_binary64 [103; 102; 100; 99])
    by (repeat constructor; discriminate).
  assert (Hf : falling 103 [102; 100; 99]) by (repeat split; reflexivity).
  split; [exact Hb |]. split; [exact Hf |].
  apply (rsi_falling_is_0 103 [102; 100; 99] Hb Hf).
Defined.

(** X8.  On flat closes (every close the same number) the RSI is NaN at
    every bar: both smoothed averages stay 0. *)
Theorem rsi_flat_is_undefined (c0 : Q) (cs : list Q) :
  flat c0 cs ->
  calculate_rsi (Fin <$> c0 :: cs) RSI_PERIOD = replicate (S (length cs)) NaN.
Proof.
  intros Hf.
  destruct (ShapeFacts.rsi_finite_series
              (fun g => g == 0) (fun l => l == 0) (fun r => r = NaN) c0 cs)
    as (rest & -> & Hlen & Hrest).
  - apply ShapeFacts.convex_zero.
  - apply ShapeFacts.convex_zero.
  - apply Forall_fmap.
    eapply Forall_impl;
      [apply (ShapeFacts.chain_diffs Qeq (fun d => d == 0)); [| exact Hf] |].
    + intros a b Hab. rewrite Hab. ring.
    + intros d Hd. cbn beta in Hd. unfold compose. cbn beta. unfold qgain.
      destruct (Num.Qltb d 0) eqn:E; [reflexivity | exact Hd].
  - apply Forall_fmap.
    eapply Forall_impl;
      [apply (ShapeFacts.chain_diffs Qeq (fun d => d == 0)); [| exact Hf] |].
    + intros a b Hab. rewrite Hab. ring.
    + intros d Hd. cbn beta in Hd. unfold compose. cbn beta. unfold qloss.
      destruct (Num.Qltb 0 d) eqn:E; [reflexivity |].
      rewrite Hd. reflexivity.
  - intros g l Hg Hl. apply ShapeFacts.rsi_of_flat; assumption.
  - cbn [replicate]. f_equal. rewrite <- Hlen.
    clear Hlen. induction Hrest as [| r rest -> _ IH]; [reflexivity |].
    cbn [length replicate]. f_equal. exact IH.
Qed.

Lemma rsi_flat_is_undefined_witness :
  flat 100 [100; 100; 100] /\
  calculate_rsi (Fin <$> [100; 100; 100; 100]) RSI_PERIOD = replicate 4 NaN.
Proof.
  assert (Hf : flat 100 [100; 100; 100]) by (repeat split; reflexivity).
  split; [exact Hf |].
  apply (rsi_flat_is_undefined 100 [100; 100; 100] Hf).
Defined.

(** ** Warm-up *)

(** C3, as the specification states it, fails: on twenty rising bars the
    EMA is defined at bar 0 and the RSI at bar 1, so neither column starts
    with 14 undefined values. *)
Lemma warm_up_counterexample :
  exists df' ema rsi,
    indicators rising_bars = ret df' /\
    df' !! "EMA" = Some ema /\ df' !! "RSI" = Some rsi /\
    ema !! 0%nat = Some (Fin 100) /\
    ~ undefined_prefix 14 ema /\ ~ undefined_prefix 14 rsi.
Proof.
  destruct (FrameFacts.indicators_columns rising_bars
              (Fin <$> rising_closes) (Fin <$> rising_closes)
              (Fin <$> rising_closes) (replicate 20 (Fin 1000))
              eq_refl eq_refl eq_refl eq_refl)
    as (df' & Hrun & _ & Hema & Hrsi & _).
  exists df', (ema_of (Fin <$> rising_closes)),
    (calculate_rsi (Fin <$> rising_closes) RSI_PERIOD).
  repeat split; try assumption.
  - intros H. specialize (H 0%nat (Fin 100) ltac:(lia) eq_refl).
    discriminate H.
  - intros H.
    assert (Hx : exists q,
               calculate_rsi (Fin <$> rising_closes) RSI_PERIOD !! 1%nat
               = Some (Fin q)) by (eexists; vm_compute; reflexivity).
    destruct Hx as (q & Hq).
    specialize (H 1%nat (Fin q) ltac:(lia) Hq). discriminate H.
Qed.

(** C3, amended.  There is no warm-up masking.  For bars with finite
    closes the EMA is defined at every bar and equals the close at bar 0.
    The RSI is undefined at bar 0 and only there by construction: at bar 1
    it is already 100 when the second close is above the first, 0 when it
    is below, and undefined only when the two are equal (for closes within
    the bound that keeps their difference from overflowing).  No entry
    signal can fire on a bar where a required indicator is undefined. *)
Theorem warm_up_first_bar_only
    (df : frame) (high low volume : list num)
    (first_close : Q) (later_closes : list Q) :
  df !! "High_QQQ" = Some high ->
  df !! "Low_QQQ" = Some low ->
  df !! "Close_QQQ" = Some (Fin <$> first_close :: later_closes) ->
  df !! "Volume_QQQ" = Some volume ->
  (exists df' emas rsi,
     indicators df = ret df' /\
     df' !! "EMA" = Some (Fin <$> first_close :: emas) /\
     length emas = length later_closes /\
     df' !! "RSI" = Some rsi /\ rsi !! 0%nat = Some NaN /\
     (forall second_close rest,
        later_closes = second_close :: rest ->
        within_binary64 first_close -> within_binary64 second_close ->
        exists r,
          rsi !! 1%nat = Some r /\
          (first_close < second_close -> Num.same r (Fin 100)) /\
          (second_close < first_close -> Num.same r (Fin 0)) /\
          (first_close == second_close -> r = NaN))) /\
  (forall data_row : row,
     data_row !! "RSI" = Some NaN \/ data_row !! "EMA" = Some NaN \/
     data_row !! "VWAP" = Some NaN ->
     returns (check_entry_condition_latest data_row) false).
Proof.
  intros Hh Hl Hc Hv. split.
  - destruct (FrameFacts.indicators_columns df _ _ _ _ Hh Hl Hc Hv)
      as (df' & Hrun & _ & Hema & Hrsi & _).
    destruct (FrameFacts.ema_finite first_close later_closes)
      as (emas & Hemas & Hlen).
    exists df', emas, (calculate_rsi (Fin <$> first_close :: later_closes)
                         RSI_PERIOD).
    rewrite Hemas in Hema.
    split; [exact Hrun |]. split; [exact Hema |]. split; [exact Hlen |].
    split; [exact Hrsi |].
    split; [apply FrameFacts.rsi_first_undefined |].
    intros second_close rest -> _ _.
    apply ShapeFacts.rsi_second_bar_cases.
  - intros data_row H. apply entry_check_nan_no_signal. tauto.
Qed.

Lemma warm_up_first_bar_only_witness :
  rising_bars !! "Close_QQQ" = Some (Fin <$> rising_closes) /\
  exists df' emas rsi,
    indicators rising_bars = ret df' /\
    df' !! "EMA" = Some (Fin <$> 100 :: emas) /\
    length emas = 19%nat /\
    df' !! "RSI" = Some rsi /\ rsi !! 0%nat = Some NaN /\
    exists r, rsi !! 1%nat = Some r /\ Num.same r (Fin 100).
Proof.
  split; [reflexivity |].
  destruct (warm_up_first_bar_only rising_bars
              (Fin <$> rising_closes) (Fin <$> rising_closes)
              (replicate 20 (Fin 1000)) 100 (tail rising_closes)
              eq_refl eq_refl eq_refl eq_refl)
    as [(df' & emas & rsi & Hrun & Hema & Hlen & Hrsi & Hfirst & Hsecond) _].
  exists df', emas, rsi.
  do 5 (split; [assumption |]).
  destruct (Hsecond 101 (tail (tail rising_closes)) eq_refl)
    as (r & Hr & Hup & _); [discriminate | discriminate |].
  exists r. split; [exact Hr | apply Hup; reflexivity].
Defined.

(** ** The EMA of finite prices *)

Module AverageFacts.

Lemma span_alpha : 0 < Series.alpha_of_span ema_period < 1.
Proof. split; reflexivity. Qed.

Lemma convex_between (alpha lo hi w c q : Q) :
  0 < alpha < 1 ->
  lo <= w <= hi -> lo <= c <= hi ->
  q == (1 - alpha) * w + alpha * c -> lo <= q <= hi.
Proof. intros Ha Hw Hc Hq. rewrite Hq. split; nra. Qed.

Lemma ewm_loop_recurrence (alpha : Q) (cs : list Q) :
  forall (w e o : Q) (n : nat),
    o == 1 -> w == e ->
    Forall2 Num.same
      (Series.ewm_loop alpha (Series.EwmState (Fin w) o (S n)) (Fin <$> cs))
      (Fin <$> ema_recurrence alpha e cs).
Proof.
  induction cs as [| c cs IH]; intros w e o n Ho Hwe; [constructor |].
  cbn [fmap list_fmap Series.ewm_loop ema_recurrence].
  unfold Series.ewm_step.
  cbn [Series.weighted Series.old_wt Series.nobs Num.is_nan negb].
  assert (Hd : Qeq_bool (o * (1 - alpha) + alpha) 0 = false)
    by (apply NumFacts.Qeq_bool_false; rewrite Ho; lra).
  unfold Num.neqb. cbn [Num.eqb].
  destruct (Qeq_bool w c) eqn:Ewc;
    cbn [negb Num.mul Num.add Num.div]; rewrite ?Hd;
    replace (S n + 1)%nat with (S (S n)) by lia;
    unfold Series.ewm_output at 1; cbn [Series.nobs Series.weighted];
    change (Series.ewm_minp <=? S (S n))%nat with true;
    cbn iota.
  - apply Qeq_bool_iff in Ewc.
    assert (Hstep : w == alpha * c + (1 - alpha) * e)
      by (rewrite <- Hwe, <- Ewc; ring).
    constructor; [exact Hstep | apply IH; [reflexivity | exact Hstep]].
  - assert (Hstep : (o * (1 - alpha) * w + alpha * c)
                    / (o * (1 - alpha) + alpha)
                    == alpha * c + (1 - alpha) * e)
      by (rewrite (ShapeFacts.convex_step alpha o w c Ho), Hwe; ring).
    constructor; [exact Hstep | apply IH; [reflexivity | exact Hstep]].
Qed.

End AverageFacts.

(** X9.  On finite closes the EMA column is the textbook recurrence with
    smoothing factor 1/8: EMA[0] = close[0] and
    EMA[t] = 1/8 * close[t] + 7/8 * EMA[t-1], bar by bar. *)
Theorem ema_is_recurrence (c0 : Q) (cs : list Q) :
  Series.alpha_of_span ema_period == 1 # 8 /\
  Forall2 Num.same
    (ema_of (Fin <$> c0 :: cs))
    (Fin <$> c0 :: ema_recurrence (Series.alpha_of_span ema_period) c0 cs).
Proof.
  split; [reflexivity |].
  unfold ema_of. rewrite RsiFacts.ewm_mean_Fin.
  cbn [fmap list_fmap Series.ewm Num.is_nan].
  constructor; [reflexivity |].
  apply AverageFacts.ewm_loop_recurrence; reflexivity.
Qed.

(** X10.  The EMA stays within the range of the closes: when every close
    is a rational of [lo, hi], so is every EMA value. *)
Theorem ema_between (lo hi c0 : Q) (cs : list Q) :
  Forall (fun c => lo <= c <= hi) (c0 :: cs) ->
  Forall (between lo hi) (ema_of (Fin <$> c0 :: cs)).
Proof.
  intros Hcs. inversion Hcs as [| ? ? Hc0 Hrest]; subst.
  unfold ema_of. rewrite RsiFacts.ewm_mean_Fin.
  cbn [fmap list_fmap Series.ewm Num.is_nan].
  destruct (ShapeFacts.ewm_loop_invariant (fun q => lo <= q <= hi)
              (Series.alpha_of_span ema_period)
              (fun w c q => AverageFacts.convex_between _ lo hi w c q
                              AverageFacts.span_alpha)
              cs Hrest c0 1 0 (Qeq_refl 1) Hc0) as (rs & -> & _ & Hrs).
  constructor; [exact Hc0 |].
  apply Forall_fmap. exact Hrs.
Qed.

Lemma ema_between_witness :
  Forall (fun c => 100 <= c <= 119) rising_closes /\
  Forall (between 100 119) (ema_of (Fin <$> rising_closes)).
Proof.
  assert (H : Forall (fun c => 100 <= c <= 119) rising_closes)
    by (repeat constructor; discriminate).
  split; [exact H |].
  apply (ema_between 100 119 100 (tail rising_closes) H).
Defined.

(** ** More on the two checks *)

(** X13.  The Entry check reads the fields RSI, Close_QQQ, EMA and VWAP
    and nothing else: two rows that agree on these four (present or
    missing alike) get the same answer and the same printed output,
    whatever their other fields. *)
Theorem entry_check_reads_four_fields (row1 row2 : row) :
  row1 !! "RSI" = row2 !! "RSI" ->
  row1 !! "Close_QQQ" = row2 !! "Close_QQQ" ->
  row1 !! "EMA" = row2 !! "EMA" ->
  row1 !! "VWAP" = row2 !! "VWAP" ->
  check_entry_condition_latest row1 = check_entry_condition_latest row2.
Proof.
  intros Hr Hc He Hv. unfold check_entry_condition_latest, getitem.
  rewrite Hr, Hc, He, Hv. reflexivity.
Qed.

Lemma entry_check_reads_four_fields_witness :
  check_entry_condition_latest
    (<["High_QQQ" := Fin 105]> (row_of (Fin 50) (Fin 101) (Fin 100) (Fin 99)))
  = check_entry_condition_latest
      (row_of (Fin 50) (Fin 101) (Fin 100) (Fin 99)).
Proof.
  apply (entry_check_reads_four_fields
           (<["High_QQQ" := Fin 105]>
              (row_of (Fin 50) (Fin 101) (Fin 100) (Fin 99)))
           (row_of (Fin 50) (Fin 101) (Fin 100) (Fin 99)));
    reflexivity.
Defined.

(** X14.  In a position, a row without its Close_QQQ field makes the Exit
    check raise KeyError('Close_QQQ'): unlike the Entry check it has no
    handler, so the error reaches the caller and nothing is printed. *)
Theorem exit_check_missing_close_raises
    (data_row : float_row) (entry_price tp sl ts : float) :
  data_row !! "Close_QQQ" = None ->
  check_exit_condition_latest data_row (Some entry_price) tp sl ts
    = raise (KeyError "Close_QQQ") /\
  fails_loudly
    (check_exit_condition_latest data_row (Some entry_price) tp sl ts).
Proof.
  intros Hclose.
  assert (H : check_exit_condition_latest data_row (Some entry_price)
                tp sl ts = raise (KeyError "Close_QQQ")).
  { unfold check_exit_condition_latest, getitem. rewrite Hclose.
    reflexivity. }
  split; [exact H |]. rewrite H. exists [], (KeyError "Close_QQQ").
  reflexivity.
Qed.

Lemma exit_check_missing_close_raises_witness :
  let data_row : float_row := {["RSI" := 50%float]} in
  data_row !! "Close_QQQ" = None /\
  check_exit_condition_latest_defaults data_row (Some 100%float)
    = raise (KeyError "Close_QQQ").
Proof.
  intros data_row.
  assert (H : data_row !! "Close_QQQ" = None) by reflexivity.
  split; [exact H |].
  apply (exit_check_missing_close_raises data_row 100%float
           take_profit_percentage_default stop_loss_percentage_default
           trailing_stop_percentage_default H).
Defined.

(** X15.  The Exit check fails closed on undefined prices: when the close
    or the buy price is NaN it reports no exit, whatever the three
    percentages are. *)
Theorem exit_check_nan_no_exit
    (data_row : float_row) (close entry_price tp sl ts : float) :
  data_row !! "Close_QQQ" = Some close ->
  close = nan \/ entry_price = nan ->
  check_exit_condition_latest data_row (Some entry_price) tp sl ts
    = ret (false, None).
Proof.
  intros Hclose Hnan.
  unfold check_exit_condition_latest, getitem. rewrite Hclose.
  cbn [bind ret]. unfold float_geb.
  destruct Hnan as [-> | ->].
  - rewrite ExitFacts.leb_nan_r, ExitFacts.leb_nan_l. reflexivity.
  - rewrite !ExitFacts.mul_nan_l, ExitFacts.leb_nan_l, ExitFacts.leb_nan_r.
    reflexivity.
Qed.

Lemma exit_check_nan_no_exit_witness :
  close_only nan !! "Close_QQQ" = Some nan /\
  check_exit_condition_latest_defaults (close_only nan) (Some 100%float)
    = ret (false, None).
Proof.
  split; [reflexivity |].
  apply (exit_check_nan_no_exit (close_only nan) nan 100%float
           take_profit_percentage_default stop_loss_percentage_default
           trailing_stop_percentage_default eq_refl).
  left. reflexivity.
Defined.

(** ** Markets *)

Module MarketFacts.

Lemma flat_series (c0 : Q) (cs : list Q) :
  flat c0 cs ->
  Forall (fun g => g == 0) (qgain <$> qdiffs c0 cs) /\
  Forall (fun l => l == 0) (qloss <$> qdiffs c0 cs).
Proof.
  intros Hf.
  assert (Hd : Forall (fun d => d == 0) (qdiffs c0 cs)).
  { apply (ShapeFacts.chain_diffs Qeq); [| exact Hf].
    intros a b Hab. rewrite Hab. ring. }
  split; apply Forall_fmap; (eapply Forall_impl; [exact Hd |]);
    intros d Hd0; unfold compose; cbn beta in *.
  - unfold qgain. destruct (Num.Qltb d 0); [reflexivity | exact Hd0].
  - unfold qloss. destruct (Num.Qltb 0 d); [reflexivity |].
    rewrite Hd0. reflexivity.
Qed.

Lemma last_Forall {A} (P : A -> Prop) (l : list A) (x : A) :
  Forall P l -> last l = Some x -> P x.
Proof.
  intros Hl Hx. apply last_Some in Hx as [l' ->].
  apply Forall_app in Hl as [_ Hl]. inversion Hl; assumption.
Qed.

(** What a run on bars prints and sends, from the latest values. *)
Lemma run_bars_decision
    (df : frame) (n : nat) (high low close volume : list num) :
  (0 < n)%nat ->
  length high = n -> length low = n -> length close = n ->
  length volume = n ->
  df !! "High_QQQ" = Some high -> df !! "Low_QQQ" = Some low ->
  df !! "Close_QQQ" = Some close -> df !! "Volume_QQQ" = Some volume ->
  exists df' rsi price ema vwap,
    indicators df = ret df' /\
    last (calculate_rsi close RSI_PERIOD) = Some rsi /\
    last close = Some price /\
    last (ema_of close) = Some ema /\
    last (vwap_of high low close volume) = Some vwap /\
    run_strategy_check df =
      (if Num.gtb rsi (Fin 45) && Num.gtb price ema && Num.gtb price vwap
       then [Print (MsgEntrySignal (iloc_last df'));
             SendTelegram (MsgEntrySignal (iloc_last df'))]
       else [Print MsgNoEntrySignal], inr tt).
Proof.
  intros Hn Hlh Hll Hlc Hlv Hh Hl Hc Hv.
  assert (Hne : close <> []) by (intros ->; simpl in Hlc; lia).
  destruct (RunFacts.last_of_length (calculate_rsi close RSI_PERIOD) n)
    as [rsi Hr]; [rewrite RunFacts.length_calculate_rsi; exact Hlc | exact Hn |].
  destruct (RunFacts.last_of_length close n Hlc Hn) as [price Hp].
  destruct (RunFacts.last_of_length (ema_of close) n)
    as [ema He]; [rewrite RunFacts.length_ema_of; exact Hlc | exact Hn |].
  destruct (RunFacts.last_of_length (vwap_of high low close volume) n)
    as [vwap Hw]; [apply RunFacts.length_vwap_of; assumption | exact Hn |].
  destruct (FrameFacts.indicators_columns df _ _ _ _ Hh Hl Hc Hv)
    as (df' & Hrun & Hvwap & Hema & Hrsi & Hclose).
  destruct (FrameFacts.run_strategy_check_bars df _ _ _ _ Hh Hl Hc Hv Hne)
    as (df2 & Hrun2 & ->).
  rewrite Hrun in Hrun2. apply ret_inj in Hrun2. subst df2.
  exists df', rsi, price, ema, vwap.
  rewrite (entry_check_complete_row (iloc_last df') rsi price ema vwap)
    by (erewrite FrameFacts.iloc_last_lookup by eassumption; assumption).
  do 5 (split; [assumption |]).
  destruct (_ && _); reflexivity.
Qed.

End MarketFacts.

(** X17.  A flat market never gives an entry signal: on bars whose closes
    are all the same number, whatever their highs, lows and volumes, the
    RSI of the latest bar is NaN and the run only prints that there is no
    entry signal. *)
Theorem flat_market_no_entry
    (df : frame) (high low volume : list num) (c0 : Q) (cs : list Q) :
  flat c0 cs ->
  length high = S (length cs) -> length low = S (length cs) ->
  length volume = S (length cs) ->
  df !! "High_QQQ" = Some high -> df !! "Low_QQQ" = Some low ->
  df !! "Close_QQQ" = Some (Fin <$> c0 :: cs) ->
  df !! "Volume_QQQ" = Some volume ->
  last (calculate_rsi (Fin <$> c0 :: cs) RSI_PERIOD) = Some NaN /\
  run_strategy_check df = ([Print MsgNoEntrySignal], inr tt).
Proof.
  intros Hf Hlh Hll Hlv Hh Hl Hc Hv.
  destruct (MarketFacts.flat_series c0 cs Hf) as [Hg Hlo].
  destruct (ShapeFacts.rsi_finite_series
              (fun g => g == 0) (fun l => l == 0) (fun r => r = NaN) c0 cs
              (ShapeFacts.convex_zero _) (ShapeFacts.convex_zero _) Hg Hlo
              ShapeFacts.rsi_of_flat) as (rest & Hrsi & _ & Hrest).
  destruct (MarketFacts.run_bars_decision df (S (length cs))
              high low (Fin <$> c0 :: cs) volume)
    as (df' & rsi & price & ema & vwap & _ & Hr & _ & _ & _ & ->);
    try assumption; [lia | rewrite length_fmap; reflexivity |].
  assert (Hnan : rsi = NaN).
  { rewrite Hrsi in Hr.
    apply (MarketFacts.last_Forall (fun r => r = NaN) (NaN :: rest));
      [constructor; [reflexivity | exact Hrest] | exact Hr]. }
  subst rsi. split; [exact Hr | reflexivity].
Qed.

Lemma flat_market_no_entry_witness :
  flat 100 (replicate 19 100) /\
  run_strategy_check
    (bars (replicate 20 (Fin 105)) (replicate 20 (Fin 95))
       (Fin <$> replicate 20 100) (replicate 20 (Fin 1000)))
    = ([Print MsgNoEntrySignal], inr tt).
Proof.
  assert (Hf : flat 100 (replicate 19 100)) by (repeat split; reflexivity).
  split; [exact Hf |].
  apply (flat_market_no_entry
           (bars (replicate 20 (Fin 105)) (replicate 20 (Fin 95))
              (Fin <$> replicate 20 100) (replicate 20 (Fin 1000)))
           (replicate 20 (Fin 105)) (replicate 20 (Fin 95))
           (replicate 20 (Fin 1000)) 100 (replicate 19 100) Hf
           eq_refl eq_refl eq_refl eq_refl eq_refl eq_refl eq_refl).
Defined.

(** ** Telegram *)

(** X18.  [send_telegram_message] makes a request only when both
    TELEGRAM_BOT_TOKEN and TELEGRAM_CHAT_ID are set and not empty;
    otherwise it prints one line and returns.  When it does, it posts
    exactly once, to the bot's sendMessage URL with the chat id and the
    message unchanged, and prints exactly one line after it, also when the
    request fails: a failure is neither retried nor raised. *)
Theorem send_telegram_message_posts_once
    (environ : gmap string string)
    (post : string -> string -> string -> Telegram.post_result)
    (message : string) :
  let out := Telegram.send_telegram_message environ post message in
  (Telegram.falsy (environ !! "TELEGRAM_BOT_TOKEN") = true \/
   Telegram.falsy (environ !! "TELEGRAM_CHAT_ID") = true ->
   out = [Telegram.Printed Telegram.not_set]) /\
  (forall bot_token chat_id,
     environ !! "TELEGRAM_BOT_TOKEN" = Some bot_token ->
     environ !! "TELEGRAM_CHAT_ID" = Some chat_id ->
     bot_token <> "" -> chat_id <> "" ->
     exists line,
       out =
         [Telegram.Posted
            ("https://api.telegram.org/bot" +:+ bot_token +:+ "/sendMessage")
            chat_id message;
          Telegram.Printed line]) /\
  (length (List.filter Telegram.is_post out) <= 1)%nat.
Proof.
  intros out. subst out. unfold Telegram.send_telegram_message.
  split; [| split].
  - intros [H | H]; rewrite H; [reflexivity |].
    rewrite orb_true_r. reflexivity.
  - intros bot_token chat_id -> -> Hb Hc.
    destruct bot_token as [| b bs]; [congruence |].
    destruct chat_id as [| c cs]; [congruence |].
    cbn [Telegram.falsy orb].
    destruct (post _ _ _); eexists; reflexivity.
  - destruct (environ !! "TELEGRAM_BOT_TOKEN") as [[| b bs] |];
      destruct (environ !! "TELEGRAM_CHAT_ID") as [[| c cs] |];
      cbn [Telegram.falsy orb]; try (simpl; lia).
    destruct (post _ _ _); simpl; lia.
Qed.

Lemma send_telegram_message_posts_once_witness :
  let environ : gmap string string :=
    <["TELEGRAM_BOT_TOKEN" := "123:abc"]> {["TELEGRAM_CHAT_ID" := "42"]} in
  exists line,
    Telegram.send_telegram_message environ (fun _ _ _ => Telegram.PostOk)
      "hello"
    = [Telegram.Posted "https://api.telegram.org/bot123:abc/sendMessage"
         "42" "hello";
       Telegram.Printed line].
Proof.
  intros environ.
  destruct (send_telegram_message_posts_once environ
              (fun _ _ _ => Telegram.PostOk) "hello") as (_ & Hpost & _).
  apply (Hpost "123:abc" "42"); [reflexivity | reflexivity | | ];
    discriminate.
Defined.
